(** * Image Viewer: the event loop shell of [Sources/Main.c]

    A shallow embedding of [main]: argument checking, start-up of the
    graphics libraries, and the polling loop that translates SDL events
    into calls of the viewport module.  The viewport module and SDL are
    external to [Main.c]; every call that [main] makes to them is recorded
    in a trace, and every value they hand back is an input of the model. *)

From Stdlib Require Import ZArith List String Bool Lia Zpower.
Import ListNotations.
Local Open Scope Z_scope.

(** ** C integers *)

Module CInt.

(** [unsigned int] and [Uint32]: values modulo [2^32]. *)
Definition uint32 (z : Z) : Z := z mod 2 ^ 32.

(** [int] and [Sint32]: two's complement wrap-around on 32 bits. *)
Definition int32 (z : Z) : Z := (z + 2 ^ 31) mod 2 ^ 32 - 2 ^ 31.

End CInt.
Import CInt.

(** ** Constants of the C library and of SDL2 used by [main] *)

Definition EXIT_SUCCESS : Z := 0.
Definition EXIT_FAILURE : Z := 1.

Module SDL.

(** [SDL_WindowEventID]: [SDL_WINDOWEVENT_SIZE_CHANGED] is the seventh
    enumerator. *)
Definition SDL_WINDOWEVENT_SIZE_CHANGED : Z := 6.

(** Key codes of printable keys are their ASCII codes. *)
Definition SDLK_f : Z := 102.
Definition SDLK_q : Z := 113.
Definition SDLK_s : Z := 115.

(** [IMG_InitFlags]. *)
Definition IMG_INIT_JPG : Z := 1.
Definition IMG_INIT_PNG : Z := 2.
Definition IMG_INIT_TIF : Z := 4.

(** The [SDL_Event] union, by the value of its [type] field.  The cases
    are the ones the [switch] of [main] tells apart; every other event
    type falls in the [default] branch. *)
Inductive SDL_Event : Type :=
| SDL_QUIT
| SDL_WINDOWEVENT (event data1 data2 : Z)
| SDL_MOUSEWHEEL (y : Z)
| SDL_KEYDOWN (sym : Z)
| SDL_MOUSEMOTION (x y : Z)
| SDL_OTHEREVENT (type : Z).

End SDL.
Import SDL.

(** ** The flipping mode identifiers *)

(** Modelled from the spec: [Viewport.h], which declares the enumeration
    [TViewportFlippingModeID], is not part of the sources.  The spec gives
    four modes, visited in the order none, horizontal, vertical, both, the
    first one being the initial mode; [main] resets the mode to the literal
    [0] when it reaches the count. *)
Definition VIEWPORT_FLIPPING_MODE_ID_NORMAL : Z := 0.
Definition VIEWPORT_FLIPPING_MODE_ID_HORIZONTAL : Z := 1.
Definition VIEWPORT_FLIPPING_MODE_ID_VERTICAL : Z := 2.
Definition VIEWPORT_FLIPPING_MODE_ID_HORIZONTAL_AND_VERTICAL : Z := 3.
Definition VIEWPORT_FLIPPING_MODE_IDS_COUNT : Z := 4.

(** ** Calls made by [main], and programs that make them *)

(** The three error messages of the start-up sequence. *)
Inductive ErrorMessage : Type :=
| Error_SDL_Init
| Error_IMG_Init
| Error_IMG_Load (file : string).

(** One entry per call that leaves [main].  A call whose result [main]
    reads carries the value it returned. *)
Inductive Call : Type :=
| MainDisplayProgramUsage (String_Program_Name : option string)
| printf (message : ErrorMessage)
| SDL_Init (result : Z)
| atexit_MainExit
| IMG_Init (result : Z)
| IMG_Load (file : string) (result : Z)
| ViewportInitialize (title : string) (result : Z)
| SDL_FreeSurface
| SDL_GetTicks (result : Z)
| SDL_PollEvent (result : option SDL_Event)
| SDL_GetMouseState (x y : Z)
| SDL_Delay (ms : Z)
| ViewportSetDimensions (width height : Z)
| ViewportSetZoomedArea (x y zoom : Z)
| ViewportSetFlippingMode (mode : Z)
| ViewportScaleImage
| ViewportDrawImage.

(** How a piece of [main] ends: it falls through with a value, it leaves
    [main] through [return], or it never ends. *)
Inductive Result (A : Type) : Type :=
| Done (a : A)
| Exit (status : Z)
| Hang.
Arguments Done {A} a.
Arguments Exit {A} status.
Arguments Hang {A}.

(** A program: the calls made, in order, and how it ended. *)
Definition Prog (A : Type) : Type := (list Call * Result A)%type.

Definition ret {A} (a : A) : Prog A := ([], Done a).
Definition call (c : Call) : Prog unit := ([c], Done tt).
Definition exit {A} (status : Z) : Prog A := ([], Exit status).
Definition hang {A} : Prog A := ([], Hang).

Definition bind {A B} (m : Prog A) (k : A -> Prog B) : Prog B :=
  match snd m with
  | Done a => (fst m ++ fst (k a), snd (k a))
  | Exit status => (fst m, Exit status)
  | Hang => (fst m, Hang)
  end.

Declare Scope prog_scope.
Delimit Scope prog_scope with prog.
Notation "x <- m ;; k" := (bind m (fun x => k))
  (at level 61, m at next level, right associativity) : prog_scope.
Notation "m ;; k" := (bind m (fun _ => k))
  (at level 61, right associativity) : prog_scope.
Local Open Scope prog_scope.

(** ** The local variables of [main] that live across events *)

Record Locals : Type := mkLocals {
  Zoom_Factor : Z;
  Flipping_Mode : Z
}.

Definition set_Zoom_Factor (z : Z) (st : Locals) : Locals :=
  mkLocals z (Flipping_Mode st).

Definition set_Flipping_Mode (m : Z) (st : Locals) : Locals :=
  mkLocals (Zoom_Factor st) m.

(** [Zoom_Factor = 1] and [Flipping_Mode = VIEWPORT_FLIPPING_MODE_ID_NORMAL]
    at their declarations. *)
Definition initial_locals : Locals :=
  mkLocals 1 VIEWPORT_FLIPPING_MODE_ID_NORMAL.

(** ** What the environment feeds to [main] *)

(** An event delivered by [SDL_PollEvent], with the position that
    [SDL_GetMouseState] reports while the event is being handled. *)
Record Polled : Type := mkPolled {
  event : SDL_Event;
  mouse : Z * Z
}.

(** One iteration of the outer loop, seen from the environment: the tick
    count at the start of the frame, the events that [SDL_PollEvent]
    delivers before it answers [0], and the tick count after drawing. *)
Record Frame : Type := mkFrame {
  start_ticks : Z;
  pending : list Polled;
  end_ticks : Z
}.

(** The results of the start-up calls. *)
Record Environment : Type := mkEnvironment {
  SDL_Init_result : Z;
  IMG_Init_result : Z;
  IMG_Load_result : Z;
  ViewportInitialize_result : Z
}.

(** ** [main] *)

Section Shell.

(** [Configuration.h] is not part of the sources: its two constants are
    parameters of the model. *)
Variable CONFIGURATION_VIEWPORT_MAXIMUM_ZOOM_FACTOR : Z.
Variable CONFIGURATION_DISPLAY_REFRESH_RATE_PERIOD : Z.

(** Iterations after which the inner [for] loop is known to be stuck:
    an [int] that starts at [1] and is doubled with wrap-around is [0]
    from its 33rd value on. *)
Definition for_fuel : nat := 64.

(** [for (i = 1; i <= Zoom_Factor; i <<= 1) ViewportSetZoomedArea(x, y, i);]
    (Main.c, line 166) from the current value of [i].  [i] is an [int]:
    the shift wraps around on 32 bits. *)
Fixpoint for_loop (fuel : nat) (x y i Zoom_Factor : Z) : Prog unit :=
  match fuel with
  | O => hang
  | S fuel' =>
      if i <=? Zoom_Factor then
        call (ViewportSetZoomedArea x y i) ;;
        for_loop fuel' x y (int32 (Z.shiftl i 1)) Zoom_Factor
      else ret tt
  end.

(** The body of the [switch (Event.type)] (Main.c, lines 107 to 173).
    [Zoom_Factor] is an [int]: [*= 2] wraps around on 32 bits and [/= 2]
    truncates toward zero.  [Flipping_Mode] is of an enumeration type
    without negative values, incremented as an [unsigned int]. *)
Definition handle_event (e : Polled) (st : Locals) : Prog Locals :=
  match event e with
  | SDL_QUIT => exit EXIT_SUCCESS
  | SDL_WINDOWEVENT ev data1 data2 =>
      if ev =? SDL_WINDOWEVENT_SIZE_CHANGED then
        call (ViewportSetDimensions data1 data2) ;;
        ret (set_Zoom_Factor 1 st)
      else ret st
  | SDL_MOUSEWHEEL wheel_y =>
      let zoom :=
        if wheel_y >? 0 then
          if Zoom_Factor st <? CONFIGURATION_VIEWPORT_MAXIMUM_ZOOM_FACTOR
          then int32 (Zoom_Factor st * 2) else Zoom_Factor st
        else
          if Zoom_Factor st >? 1
          then Z.quot (Zoom_Factor st) 2 else Zoom_Factor st in
      let '(Mouse_X, Mouse_Y) := mouse e in
      call (SDL_GetMouseState Mouse_X Mouse_Y) ;;
      call (ViewportSetZoomedArea Mouse_X Mouse_Y zoom) ;;
      ret (set_Zoom_Factor zoom st)
  | SDL_KEYDOWN sym =>
      if sym =? SDLK_f then
        let incremented := uint32 (Flipping_Mode st + 1) in
        let mode :=
          if incremented >=? VIEWPORT_FLIPPING_MODE_IDS_COUNT
          then 0 else incremented in
        call (ViewportSetFlippingMode mode) ;;
        ret (set_Zoom_Factor 1 (set_Flipping_Mode mode st))
      else if sym =? SDLK_q then exit EXIT_SUCCESS
      else if sym =? SDLK_s then
        call ViewportScaleImage ;;
        ret (set_Zoom_Factor 1 st)
      else ret st
  | SDL_MOUSEMOTION x y =>
      if Zoom_Factor st >? 1 then
        for_loop for_fuel x y 1 (Zoom_Factor st) ;;
        ret st
      else ret st
  | SDL_OTHEREVENT _ => ret st
  end.

(** [while (SDL_PollEvent(&Event)) switch (Event.type) ...] (Main.c,
    lines 105 to 174): the events are taken one by one until the queue
    answers [0]; a [return] in the [switch] leaves [main] at once. *)
Fixpoint poll_loop (events : list Polled) (st : Locals) : Prog Locals :=
  match events with
  | [] => call (SDL_PollEvent None) ;; ret st
  | e :: events' =>
      call (SDL_PollEvent (Some (event e))) ;;
      st' <- handle_event e st ;;
      poll_loop events' st'
  end.

(** The wait at the end of an iteration (Main.c, lines 179 and 180);
    [Elapsed_Time] is an [unsigned int], so the subtractions and the
    comparison are unsigned. *)
Definition pace (Frame_Starting_Time now : Z) : Prog unit :=
  let Elapsed_Time := uint32 (uint32 now - uint32 Frame_Starting_Time) in
  if Elapsed_Time <? uint32 CONFIGURATION_DISPLAY_REFRESH_RATE_PERIOD then
    call (SDL_Delay
            (uint32 (uint32 CONFIGURATION_DISPLAY_REFRESH_RATE_PERIOD
                     - Elapsed_Time)))
  else ret tt.

(** One iteration of [while (1)] (Main.c, lines 102 to 180). *)
Definition frame (f : Frame) (st : Locals) : Prog Locals :=
  call (SDL_GetTicks (start_ticks f)) ;;
  st' <- poll_loop (pending f) st ;;
  call ViewportDrawImage ;;
  call (SDL_GetTicks (end_ticks f)) ;;
  pace (start_ticks f) (end_ticks f) ;;
  ret st'.

(** [while (1)] over the frames the environment supplies.  [Done st]
    means that the loop is still running, with locals [st], when the
    supplied frames are used up. *)
Fixpoint main_loop (frames : list Frame) (st : Locals) : Prog Locals :=
  match frames with
  | [] => ret st
  | f :: frames' =>
      st' <- frame f st ;;
      main_loop frames' st'
  end.

(** The window title: ["Image Viewer - "] followed by at most
    [sizeof(String_Program_Title) - sizeof("Image Viewer - ")] characters
    of the file name. *)
Definition String_Program_Title (file : string) : string :=
  ("Image Viewer - " ++ substring 0 (256 - 16) file)%string.

Definition IMG_INIT_ALL : Z :=
  Z.lor (Z.lor IMG_INIT_JPG IMG_INIT_PNG) IMG_INIT_TIF.

(** [main(argc, argv)] (Main.c, lines 45 to 182), with [argc] the length
    of [argv]; [argv[0]] is absent when [argc] is [0]. *)
Definition main (argv : list string) (env : Environment)
    (frames : list Frame) : Prog Locals :=
  let argc := Z.of_nat (List.length argv) in
  if negb (argc =? 2) then
    call (MainDisplayProgramUsage (nth_error argv 0)) ;;
    exit EXIT_FAILURE
  else
    let file := nth 1 argv EmptyString in
    if String.eqb file "--help" then
      call (MainDisplayProgramUsage (nth_error argv 0)) ;;
      exit EXIT_SUCCESS
    else
      call (SDL_Init (SDL_Init_result env)) ;;
      if negb (SDL_Init_result env =? 0) then
        call (printf Error_SDL_Init) ;;
        exit EXIT_FAILURE
      else
        call atexit_MainExit ;;
        call (IMG_Init (IMG_Init_result env)) ;;
        if negb (IMG_Init_result env =? IMG_INIT_ALL) then
          call (printf Error_IMG_Init) ;;
          exit EXIT_FAILURE
        else
          call (IMG_Load file (IMG_Load_result env)) ;;
          if IMG_Load_result env =? 0 then
            call (printf (Error_IMG_Load file)) ;;
            exit EXIT_FAILURE
          else
            call (ViewportInitialize (String_Program_Title file)
                    (ViewportInitialize_result env)) ;;
            if negb (ViewportInitialize_result env =? 0) then
              exit EXIT_FAILURE
            else
              call SDL_FreeSurface ;;
              main_loop frames initial_locals.

End Shell.

(** ** The exit handler *)

(** The calls of [MainExit] (Main.c, lines 36 to 40), which [main]
    registers with [atexit] once [SDL_Init] has succeeded. *)
Inductive ExitCall : Type :=
| IMG_Quit
| SDL_Quit.

Definition MainExit : list ExitCall := [IMG_Quit; SDL_Quit].

Definition is_atexit_MainExit (c : Call) : bool :=
  match c with atexit_MainExit => true | _ => false end.

(** The process: the calls of [main], then, when [main] returns, the calls
    of the handler if [main] registered it, and the way [main] ended. *)
Definition process (MAX PERIOD : Z) (argv : list string) (env : Environment)
    (frames : list Frame) : list Call * list ExitCall * Result Locals :=
  let run := main MAX PERIOD argv env frames in
  (fst run,
   match snd run with
   | Exit _ => if existsb is_atexit_MainExit (fst run) then MainExit else []
   | _ => []
   end,
   snd run).

(** ** Vocabulary of the properties *)

(** The calls that are operations of the viewport module after start-up. *)
Definition is_viewport_operation (c : Call) : bool :=
  match c with
  | ViewportSetDimensions _ _ | ViewportSetZoomedArea _ _ _
  | ViewportSetFlippingMode _ | ViewportScaleImage | ViewportDrawImage => true
  | _ => false
  end.

Definition is_ViewportSetZoomedArea (c : Call) : bool :=
  match c with ViewportSetZoomedArea _ _ _ => true | _ => false end.

Definition is_ViewportDrawImage (c : Call) : bool :=
  match c with ViewportDrawImage => true | _ => false end.

Definition is_SDL_Delay (c : Call) : bool :=
  match c with SDL_Delay _ => true | _ => false end.

Definition is_MainDisplayProgramUsage (c : Call) : bool :=
  match c with MainDisplayProgramUsage _ => true | _ => false end.

(** The calls that the handling of an event can make. *)
Definition is_handler_call (c : Call) : bool :=
  match c with
  | SDL_GetMouseState _ _ | ViewportSetDimensions _ _
  | ViewportSetZoomedArea _ _ _ | ViewportSetFlippingMode _
  | ViewportScaleImage => true
  | _ => false
  end.

(** The calls that the polling loop can make: the polls and the calls of
    the handlers. *)
Definition is_polling_call (c : Call) : bool :=
  match c with
  | SDL_PollEvent _ => true
  | _ => is_handler_call c
  end.

(** Number of calls of a trace that satisfy [p]. *)
Definition count_calls (p : Call -> bool) (tr : list Call) : nat :=
  List.length (filter p tr).

(** The events that a trace shows as delivered by [SDL_PollEvent]. *)
Fixpoint delivered (tr : list Call) : list SDL_Event :=
  match tr with
  | [] => []
  | SDL_PollEvent (Some e) :: tr' => e :: delivered tr'
  | _ :: tr' => delivered tr'
  end.

(** A zoom factor within the configured range: a power of two between [1]
    and the maximum. *)
Definition zoom_in_range (MAX z : Z) : Prop :=
  (exists n : nat, z = two_power_nat n) /\ 1 <= z <= MAX.

(** A flipping mode of the four-element set. *)
Definition mode_in_range (m : Z) : Prop :=
  0 <= m < VIEWPORT_FLIPPING_MODE_IDS_COUNT.

(** What a call may carry: a zoom factor in range, a mode in range. *)
Definition call_in_range (MAX : Z) (c : Call) : Prop :=
  match c with
  | ViewportSetZoomedArea _ _ z => zoom_in_range MAX z
  | ViewportSetFlippingMode m => mode_in_range m
  | _ => True
  end.

(** Locals within range: the invariant of the event loop. *)
Definition locals_in_range (MAX : Z) (st : Locals) : Prop :=
  zoom_in_range MAX (Zoom_Factor st) /\ mode_in_range (Flipping_Mode st).

(** A program that stays in range: its calls carry values in range, it
    ends, and when it falls through its value satisfies [Q]. *)
Definition prog_in_range {A} (MAX : Z) (Q : A -> Prop) (m : Prog A) : Prop :=
  Forall (call_in_range MAX) (fst m) /\
  snd m <> Hang /\
  forall a, snd m = Done a -> Q a.

(** The factors [1, 2, 4, ..., 2^n]. *)
Definition powers_of_two_up_to (n : nat) : list Z :=
  map two_power_nat (seq 0 (S n)).

(** The transitions of the zoom factor in the words of the spec: times two
    unless already at the maximum, divided by two unless already at [1]. *)
Definition zoom_increase (MAX z : Z) : Z := if z =? MAX then z else z * 2.
Definition zoom_decrease (z : Z) : Z := if z =? 1 then z else z / 2.

(** The next mode of the cycle none, horizontal, vertical, both. *)
Definition next_mode (m : Z) : Z := (m + 1) mod VIEWPORT_FLIPPING_MODE_IDS_COUNT.

(** The signals that end the program: the quit event and the 'q' key. *)
Definition is_quit_signal (e : SDL_Event) : bool :=
  match e with
  | SDL_QUIT => true
  | SDL_KEYDOWN sym => sym =? SDLK_q
  | _ => false
  end.

Definition quits (e : Polled) : bool := is_quit_signal (event e).

(** Whether some event of the frames is a quit signal. *)
Definition has_quit_signal (frames : list Frame) : bool :=
  existsb (fun f => existsb quits (pending f)) frames.

(** Every start-up call succeeds. *)
Definition startup_succeeds (env : Environment) : Prop :=
  SDL_Init_result env = 0 /\
  IMG_Init_result env = IMG_INIT_ALL /\
  IMG_Load_result env <> 0 /\
  ViewportInitialize_result env = 0.

(** The locals that [main] can hold between two events: the initial ones,
    and the ones left by handling an event from locals it can hold. *)
Inductive reachable (MAX : Z) : Locals -> Prop :=
| reachable_initial : reachable MAX initial_locals
| reachable_event st e st' :
    reachable MAX st ->
    snd (handle_event MAX e st) = Done st' ->
    reachable MAX st'.

(** Handling a list of events in order, without the final poll that finds
    the queue empty. *)
Fixpoint dispatch (MAX : Z) (events : list Polled) (st : Locals) : Prog Locals :=
  match events with
  | [] => ret st
  | e :: events' =>
      call (SDL_PollEvent (Some (event e))) ;;
      st' <- handle_event MAX e st ;;
      dispatch MAX events' st'
  end.

(** The calls of a start-up in which every call succeeds. *)
Definition startup_calls (file : string) (env : Environment) : list Call :=
  [SDL_Init 0; atexit_MainExit; IMG_Init IMG_INIT_ALL;
   IMG_Load file (IMG_Load_result env);
   ViewportInitialize (String_Program_Title file) 0; SDL_FreeSurface].

(** Whether [main] gets as far as registering the exit handler. *)
Definition reaches_atexit (argv : list string) (env : Environment) : bool :=
  (Z.of_nat (List.length argv) =? 2) &&
  negb (String.eqb (nth 1 argv EmptyString) "--help") &&
  (SDL_Init_result env =? 0).

(** The events supplied by the environment, in the order of their arrival. *)
Definition supplied_events (frames : list Frame) : list SDL_Event :=
  flat_map (fun f => map event (pending f)) frames.

(** The events up to and including the first quit signal. *)
Fixpoint until_quit (events : list SDL_Event) : list SDL_Event :=
  match events with
  | [] => []
  | e :: events' =>
      if is_quit_signal e then [e] else e :: until_quit events'
  end.

(** The number of frames before the first one that holds a quit signal. *)
Fixpoint frames_before_quit (frames : list Frame) : nat :=
  match frames with
  | [] => 0
  | f :: frames' =>
      if existsb quits (pending f) then 0%nat
      else S (frames_before_quit frames')
  end.

(** The zoom factor that the viewport was last given, [acc] if the trace
    gives none. *)
Definition zoom_after (acc : option Z) (tr : list Call) : option Z :=
  fold_left
    (fun acc c =>
       match c with ViewportSetZoomedArea _ _ z => Some z | _ => acc end)
    tr acc.

Definition last_zoom (tr : list Call) : option Z := zoom_after None tr.

(** The zoom factor of the shell agrees with the viewport: it is 1, or it
    is the factor last given. *)
Definition zoom_synced (acc : option Z) (st : Locals) : Prop :=
  Zoom_Factor st = 1 \/ acc = Some (Zoom_Factor st).

(** A call that, if it is a wait, lies within the period. *)
Definition delay_within (PERIOD : Z) (c : Call) : Prop :=
  forall ms, c = SDL_Delay ms -> 0 < ms <= uint32 PERIOD.

(** The calls that read the clock or wait. *)
Definition is_clock_call (c : Call) : bool :=
  match c with SDL_GetTicks _ | SDL_Delay _ => true | _ => false end.

(** The calls of a trace other than the clock calls. *)
Definition untimed (tr : list Call) : list Call :=
  filter (fun c => negb (is_clock_call c)) tr.

(** An event that arrives while the mouse is at (30, 40). *)
Definition at_mouse (e : SDL_Event) : Polled := mkPolled e (30, 40).

(** The time [main] measures for a frame. *)
Definition Elapsed_Time (f : Frame) : Z := uint32 (end_ticks f - start_ticks f).

(** ** Integers and programs: basic facts *)

Lemma uint32_small z : 0 <= z < 2 ^ 32 -> uint32 z = z.
Proof. intros H. unfold uint32. now apply Z.mod_small. Qed.

Lemma int32_small z : - 2 ^ 31 <= z < 2 ^ 31 -> int32 z = z.
Proof. intros H. unfold int32. rewrite Z.mod_small; lia. Qed.

Lemma uint32_range z : 0 <= uint32 z < 2 ^ 32.
Proof. unfold uint32. apply Z.mod_pos_bound. lia. Qed.

Lemma uint32_sub z1 z2 : uint32 (uint32 z1 - uint32 z2) = uint32 (z1 - z2).
Proof. unfold uint32. now rewrite <- Zminus_mod. Qed.

Lemma two_power_nat_pos n : 1 <= two_power_nat n.
Proof.
  induction n as [|n IH]; [reflexivity|].
  rewrite two_power_nat_S. lia.
Qed.

Lemma two_power_nat_le n m : (n <= m)%nat -> two_power_nat n <= two_power_nat m.
Proof.
  induction 1 as [|m _ IH]; [lia|].
  rewrite two_power_nat_S. pose proof (two_power_nat_pos m). lia.
Qed.

Lemma two_power_nat_lt n m : (n < m)%nat -> two_power_nat n < two_power_nat m.
Proof.
  intros H. apply Z.lt_le_trans with (two_power_nat (S n)).
  - rewrite two_power_nat_S. pose proof (two_power_nat_pos n). lia.
  - now apply two_power_nat_le.
Qed.

Lemma two_power_nat_inj_le n m :
  two_power_nat n <= two_power_nat m -> (n <= m)%nat.
Proof.
  intros H. destruct (Nat.le_gt_cases n m) as [|Hlt]; [assumption|].
  apply two_power_nat_lt in Hlt. lia.
Qed.

Lemma two_power_nat_30 : two_power_nat 30 = 2 ^ 30.
Proof. reflexivity. Qed.

(** Doubling a power of two below [2^30] does not overflow an [int]. *)
Lemma int32_double n :
  (n <= 29)%nat -> int32 (two_power_nat n * 2) = two_power_nat (S n).
Proof.
  intros H. rewrite two_power_nat_S.
  pose proof (two_power_nat_pos n).
  assert (two_power_nat n <= two_power_nat 29) by now apply two_power_nat_le.
  change (two_power_nat 29) with (2 ^ 29) in *.
  rewrite int32_small; lia.
Qed.

Lemma int32_shiftl n :
  (n <= 29)%nat -> int32 (Z.shiftl (two_power_nat n) 1) = two_power_nat (S n).
Proof.
  intros H. rewrite Z.shiftl_mul_pow2 by lia. now apply int32_double.
Qed.

Lemma bind_Done {A B} (m : Prog A) (k : A -> Prog B) tr a :
  m = (tr, Done a) -> bind m k = (tr ++ fst (k a), snd (k a)).
Proof. intros ->. reflexivity. Qed.

Lemma bind_Exit {A B} (m : Prog A) (k : A -> Prog B) tr status :
  m = (tr, Exit status) -> bind m k = (tr, Exit status).
Proof. intros ->. reflexivity. Qed.

Lemma bind_call {B} (c : Call) (k : unit -> Prog B) :
  bind (call c) k = (c :: fst (k tt), snd (k tt)).
Proof. reflexivity. Qed.

Lemma bind_snd_Done {A B} (m : Prog A) (k : A -> Prog B) b :
  snd (bind m k) = Done b ->
  exists a, snd m = Done a /\ snd (k a) = Done b /\
            fst (bind m k) = fst m ++ fst (k a).
Proof.
  unfold bind. destruct (snd m) as [a| |]; cbn; intros H; try discriminate.
  now exists a.
Qed.

Lemma bind_Forall {A B} (P : Call -> Prop) (m : Prog A) (k : A -> Prog B) :
  Forall P (fst m) ->
  (forall a, snd m = Done a -> Forall P (fst (k a))) ->
  Forall P (fst (bind m k)).
Proof.
  intros Hm Hk. unfold bind. destruct (snd m) as [a| |]; cbn; auto.
  apply Forall_app. split; auto.
Qed.


(** ** The inner [for] loop *)

Section ForLoop.

Variables x y : Z.

(** From [i = 2^j] up to a zoom factor [2^(j+m)] that is at most [2^29],
    the loop makes one call per power of two and ends. *)
Lemma for_loop_powers (m : nat) :
  forall (j fuel : nat),
    (j + m <= 29)%nat -> (m + 2 <= fuel)%nat ->
    for_loop fuel x y (two_power_nat j) (two_power_nat (j + m)) =
    (map (ViewportSetZoomedArea x y) (map two_power_nat (seq j (S m))),
     Done tt).
Proof.
  induction m as [|m IH]; intros j fuel Hj Hfuel.
  - destruct fuel as [|[|fuel]]; try lia.
    rewrite Nat.add_0_r. cbn [for_loop].
    rewrite (proj2 (Z.leb_le _ _)) by lia.
    rewrite bind_call, int32_shiftl by lia.
    assert (Hlt : two_power_nat j < two_power_nat (S j))
      by (apply two_power_nat_lt; lia).
    rewrite (proj2 (Z.leb_gt _ _)) by exact Hlt.
    reflexivity.
  - destruct fuel as [|fuel]; try lia.
    cbn [for_loop].
    assert (Hle : two_power_nat j <= two_power_nat (j + S m))
      by (apply two_power_nat_le; lia).
    rewrite (proj2 (Z.leb_le _ _)) by exact Hle.
    rewrite bind_call, int32_shiftl by lia.
    replace (j + S m)%nat with (S j + m)%nat by lia.
    rewrite IH by lia. reflexivity.
Qed.

(** Below [2^30] the loop ends within its fuel, whatever the factor. *)
Lemma for_loop_ends (Zoom : Z) (d : nat) :
  Zoom < 2 ^ 30 ->
  forall (j fuel : nat),
    (j + d = 30)%nat -> (d + 1 <= fuel)%nat ->
    snd (for_loop fuel x y (two_power_nat j) Zoom) = Done tt.
Proof.
  intros HZ. induction d as [|d IH]; intros j fuel Hj Hfuel.
  - destruct fuel as [|fuel]; try lia.
    replace j with 30%nat by lia. cbn [for_loop].
    rewrite two_power_nat_30, (proj2 (Z.leb_gt _ _)) by lia.
    reflexivity.
  - destruct fuel as [|fuel]; try lia. cbn [for_loop].
    destruct (two_power_nat j <=? Zoom); [|reflexivity].
    rewrite bind_call, int32_shiftl by lia. cbn [snd].
    apply IH; lia.
Qed.

(** Once [i] is [0] the loop is stuck: shifting leaves it at [0]. *)
Lemma for_loop_stuck (Zoom : Z) (fuel : nat) :
  0 <= Zoom -> snd (for_loop fuel x y 0 Zoom) = Hang.
Proof.
  intros HZ. induction fuel as [|fuel IH]; [reflexivity|].
  cbn [for_loop]. rewrite (proj2 (Z.leb_le _ _)) by lia.
  rewrite bind_call. cbn [snd]. exact IH.
Qed.

(** From [2^30] on, the doubling wraps to [-2^31] and then to [0]: the
    loop never ends, with any fuel. *)
Lemma for_loop_never_ends (Zoom : Z) (d : nat) :
  2 ^ 30 <= Zoom ->
  forall (j fuel : nat),
    (j + d = 30)%nat ->
    snd (for_loop fuel x y (two_power_nat j) Zoom) = Hang.
Proof.
  intros HZ. induction d as [|d IH]; intros j fuel Hj.
  - replace j with 30%nat by lia.
    destruct fuel as [|fuel]; [reflexivity|]. cbn [for_loop].
    rewrite two_power_nat_30, (proj2 (Z.leb_le _ _)) by lia.
    rewrite bind_call. cbn [snd].
    change (int32 (Z.shiftl (2 ^ 30) 1)) with (- 2 ^ 31).
    destruct fuel as [|fuel]; [reflexivity|]. cbn [for_loop].
    rewrite (proj2 (Z.leb_le _ _)) by lia.
    rewrite bind_call. cbn [snd].
    change (int32 (Z.shiftl (- 2 ^ 31) 1)) with 0.
    apply for_loop_stuck. lia.
  - destruct fuel as [|fuel]; [reflexivity|]. cbn [for_loop].
    assert (two_power_nat j <= two_power_nat 30)
      by (apply two_power_nat_le; lia).
    rewrite two_power_nat_30 in *.
    rewrite (proj2 (Z.leb_le _ _)) by lia.
    rewrite bind_call, int32_shiftl by lia. cbn [snd].
    apply IH. lia.
Qed.

End ForLoop.

(** The fuel of the model decides whether the loop of [main] ends: it runs
    out exactly when no amount of fuel would do. *)
Lemma for_loop_fuel_adequate (x y Zoom : Z) :
  (Zoom < 2 ^ 30 -> snd (for_loop for_fuel x y 1 Zoom) = Done tt) /\
  (2 ^ 30 <= Zoom -> forall fuel, snd (for_loop fuel x y 1 Zoom) = Hang).
Proof.
  split; intros HZ.
  - apply (for_loop_ends x y Zoom 30 HZ 0%nat); unfold for_fuel; lia.
  - intros fuel. apply (for_loop_never_ends x y Zoom 30 HZ 0%nat). lia.
Qed.

(** ** Single events *)

Section Events.

Variable MAX : Z.

(** A resize: one call of [ViewportSetDimensions], zoom factor [1]. *)
Lemma handle_resize (data1 data2 : Z) (ms : Z * Z) (st : Locals) :
  handle_event MAX
    (mkPolled (SDL_WINDOWEVENT SDL_WINDOWEVENT_SIZE_CHANGED data1 data2) ms) st
  = ([ViewportSetDimensions data1 data2], Done (set_Zoom_Factor 1 st)).
Proof. reflexivity. Qed.

(** The 'f' key: one call of [ViewportSetFlippingMode] with the mode after
    the increment and the reset at the count, zoom factor [1]. *)
Lemma handle_key_f (ms : Z * Z) (st : Locals) :
  mode_in_range (Flipping_Mode st) ->
  handle_event MAX (mkPolled (SDL_KEYDOWN SDLK_f) ms) st
  = ([ViewportSetFlippingMode (next_mode (Flipping_Mode st))],
     Done (mkLocals 1 (next_mode (Flipping_Mode st)))).
Proof.
  unfold mode_in_range, VIEWPORT_FLIPPING_MODE_IDS_COUNT. intros Hm.
  unfold handle_event. cbn [event]. cbn [Z.eqb SDLK_f Pos.eqb].
  rewrite uint32_small by lia.
  unfold next_mode, VIEWPORT_FLIPPING_MODE_IDS_COUNT.
  destruct (Z.eq_dec (Flipping_Mode st) 3) as [E|E].
  - rewrite E. reflexivity.
  - rewrite Z.mod_small by lia.
    replace (Flipping_Mode st + 1 >=? 4) with false
      by (symmetry; rewrite Z.geb_leb; apply Z.leb_gt; lia).
    reflexivity.
Qed.

(** The 's' key: one call of [ViewportScaleImage], zoom factor [1]. *)
Lemma handle_key_s (ms : Z * Z) (st : Locals) :
  handle_event MAX (mkPolled (SDL_KEYDOWN SDLK_s) ms) st
  = ([ViewportScaleImage], Done (set_Zoom_Factor 1 st)).
Proof. reflexivity. Qed.

(** The wheel: the new factor, the mouse position query, one call of
    [ViewportSetZoomedArea]. *)
Lemma handle_wheel (wheel_y Mouse_X Mouse_Y : Z) (st : Locals) :
  let zoom :=
    if wheel_y >? 0 then
      if Zoom_Factor st <? MAX then int32 (Zoom_Factor st * 2)
      else Zoom_Factor st
    else
      if Zoom_Factor st >? 1 then Z.quot (Zoom_Factor st) 2
      else Zoom_Factor st in
  handle_event MAX (mkPolled (SDL_MOUSEWHEEL wheel_y) (Mouse_X, Mouse_Y)) st
  = ([SDL_GetMouseState Mouse_X Mouse_Y;
      ViewportSetZoomedArea Mouse_X Mouse_Y zoom],
     Done (set_Zoom_Factor zoom st)).
Proof. reflexivity. Qed.

(** Mouse motion at a zoom factor [2^n] with [1 <= n <= 29]: the calls
    of the [for] loop, locals unchanged. *)
Lemma handle_motion_zoomed (x y : Z) (ms : Z * Z) (st : Locals) (n : nat) :
  Zoom_Factor st = two_power_nat n -> (1 <= n <= 29)%nat ->
  handle_event MAX (mkPolled (SDL_MOUSEMOTION x y) ms) st
  = (map (ViewportSetZoomedArea x y) (powers_of_two_up_to n), Done st).
Proof.
  intros HZ Hn. unfold handle_event. cbn [event]. rewrite HZ.
  assert (two_power_nat 1 <= two_power_nat n)
    by (apply two_power_nat_le; lia).
  change (two_power_nat 1) with 2 in *.
  replace (two_power_nat n >? 1) with true
    by (symmetry; rewrite Z.gtb_ltb; apply Z.ltb_lt; lia).
  change 1 with (two_power_nat 0) at 1.
  change n with (0 + n)%nat at 1.
  rewrite (bind_Done _ _ _ _ (for_loop_powers x y n 0 for_fuel
             ltac:(lia) ltac:(unfold for_fuel; lia))).
  cbn [ret fst snd]. rewrite app_nil_r. reflexivity.
Qed.

(** Mouse motion at zoom factor [1]: nothing is called. *)
Lemma handle_motion_unzoomed (x y : Z) (ms : Z * Z) (st : Locals) :
  Zoom_Factor st = 1 ->
  handle_event MAX (mkPolled (SDL_MOUSEMOTION x y) ms) st = ([], Done st).
Proof.
  intros HZ. unfold handle_event. cbn [event]. rewrite HZ. reflexivity.
Qed.

(** Mouse motion at a zoom factor from [2^30] on: the [for] loop of
    [main] does not end. *)
Lemma handle_motion_overflow (x y : Z) (ms : Z * Z) (st : Locals) :
  2 ^ 30 <= Zoom_Factor st ->
  snd (handle_event MAX (mkPolled (SDL_MOUSEMOTION x y) ms) st) = Hang.
Proof.
  intros HZ. unfold handle_event. cbn [event].
  replace (Zoom_Factor st >? 1) with true
    by (symmetry; rewrite Z.gtb_ltb; apply Z.ltb_lt; lia).
  unfold bind.
  now rewrite (proj2 (for_loop_fuel_adequate x y (Zoom_Factor st)) HZ).
Qed.

End Events.

(** ** The invariant of the event loop *)

(** Splits a goal about the trace, the ending and the final locals of an
    event whose handling has been computed. *)
Ltac in_range_cases :=
  repeat match goal with
    | |- _ /\ _ => split
    | |- Forall _ [] => constructor
    | |- Forall _ (_ :: _) => constructor
    | |- _ <> _ => discriminate
    | |- forall _, _ => intros
    | H : Done _ = Done _ |- _ => injection H as <-
    | H : Exit _ = Done _ |- _ => discriminate H
    | |- locals_in_range _ _ => split
    end;
  cbn [Zoom_Factor Flipping_Mode set_Zoom_Factor set_Flipping_Mode
       call_in_range];
  try assumption; try exact I.

Section Invariant.

(** The maximum zoom factor is a power of two, small enough for the
    doublings of [main] to stay within an [int]. *)
Variable MAX : Z.
Variable k : nat.
Hypothesis k_small : (k <= 29)%nat.
Hypothesis MAX_power : MAX = two_power_nat k.

Lemma zoom_in_range_1 : zoom_in_range MAX 1.
Proof.
  split; [now exists 0%nat|].
  pose proof (two_power_nat_pos k). lia.
Qed.

Lemma zoom_in_range_exponent (z : Z) :
  zoom_in_range MAX z -> exists n, (n <= k)%nat /\ z = two_power_nat n.
Proof.
  intros [[n Hn] Hz]. exists n. split; [|assumption].
  apply two_power_nat_inj_le. lia.
Qed.

Lemma zoom_in_range_power (n : nat) :
  (n <= k)%nat -> zoom_in_range MAX (two_power_nat n).
Proof.
  intros Hn. split; [now exists n|].
  pose proof (two_power_nat_pos n).
  pose proof (two_power_nat_le n k Hn). lia.
Qed.

Lemma initial_locals_in_range : locals_in_range MAX initial_locals.
Proof.
  split; [apply zoom_in_range_1|].
  unfold mode_in_range. cbn. unfold VIEWPORT_FLIPPING_MODE_ID_NORMAL,
    VIEWPORT_FLIPPING_MODE_IDS_COUNT. lia.
Qed.

(** The increment of the wheel branch is the clamped doubling. *)
Lemma wheel_increase (z : Z) :
  zoom_in_range MAX z ->
  (if z <? MAX then int32 (z * 2) else z) = zoom_increase MAX z /\
  zoom_in_range MAX (zoom_increase MAX z).
Proof.
  intros Hz. destruct (zoom_in_range_exponent z Hz) as (n & Hn & ->).
  unfold zoom_increase.
  destruct (Z.eqb_spec (two_power_nat n) MAX) as [E|E].
  - split; [now rewrite E, Z.ltb_irrefl|exact Hz].
  - assert (Hlt : (n < k)%nat).
    { destruct (Nat.eq_dec n k) as [->|]; [congruence|lia]. }
    pose proof (two_power_nat_lt n k Hlt).
    rewrite (proj2 (Z.ltb_lt _ _)) by lia.
    rewrite int32_double by lia. rewrite two_power_nat_S.
    split; [lia|].
    replace (two_power_nat n * 2) with (two_power_nat (S n))
      by (rewrite two_power_nat_S; lia).
    apply zoom_in_range_power. lia.
Qed.

(** The decrement of the wheel branch is the clamped halving. *)
Lemma wheel_decrease (z : Z) :
  zoom_in_range MAX z ->
  (if z >? 1 then Z.quot z 2 else z) = zoom_decrease z /\
  zoom_in_range MAX (zoom_decrease z).
Proof.
  intros Hz. destruct (zoom_in_range_exponent z Hz) as (n & Hn & ->).
  unfold zoom_decrease. destruct n as [|n].
  - change (two_power_nat 0) with 1. cbn. split; [reflexivity|].
    apply zoom_in_range_1.
  - pose proof (two_power_nat_pos n) as Hpos.
    rewrite two_power_nat_S in *.
    replace (2 * two_power_nat n >? 1) with true
      by (symmetry; rewrite Z.gtb_ltb; apply Z.ltb_lt; lia).
    replace (2 * two_power_nat n =? 1) with false
      by (symmetry; apply Z.eqb_neq; lia).
    rewrite Z.quot_div_nonneg by lia.
    replace (2 * two_power_nat n) with (two_power_nat n * 2) by lia.
    rewrite Z.div_mul by lia.
    split; [reflexivity|]. apply zoom_in_range_power. lia.
Qed.

(** Handling any event keeps the locals in range, passes only factors
    and modes in range to the viewport, and ends. *)
Lemma handle_event_in_range (e : Polled) (st : Locals) :
  locals_in_range MAX st ->
  Forall (call_in_range MAX) (fst (handle_event MAX e st)) /\
  snd (handle_event MAX e st) <> Hang /\
  forall st', snd (handle_event MAX e st) = Done st' ->
              locals_in_range MAX st'.
Proof.
  intros [HZ HM]. destruct e as [ev [mx my]]. destruct ev as
    [|wev d1 d2|wy|sym|x y|ty].
  - cbn. in_range_cases.
  - unfold handle_event. cbn [event].
    destruct (wev =? SDL_WINDOWEVENT_SIZE_CHANGED); cbn; in_range_cases.
    apply zoom_in_range_1.
  - rewrite handle_wheel. cbn [fst snd].
    assert (Hnew : zoom_in_range MAX
              (if wy >? 0
               then if Zoom_Factor st <? MAX
                    then int32 (Zoom_Factor st * 2) else Zoom_Factor st
               else if Zoom_Factor st >? 1
                    then Z.quot (Zoom_Factor st) 2 else Zoom_Factor st)).
    { destruct (wy >? 0).
      - destruct (wheel_increase _ HZ) as [-> ?]. assumption.
      - destruct (wheel_decrease _ HZ) as [-> ?]. assumption. }
    in_range_cases.
  - unfold handle_event. cbn [event].
    destruct (Z.eqb_spec sym SDLK_f) as [->|_].
    + pose proof (handle_key_f MAX (mx, my) st HM) as Hf.
      unfold handle_event in Hf. cbn [event] in Hf.
      change (SDLK_f =? SDLK_f) with true in Hf. cbv iota in Hf.
      rewrite Hf. cbn [fst snd].
      assert (Hnext : mode_in_range (next_mode (Flipping_Mode st))).
      { unfold mode_in_range, next_mode.
        apply Z.mod_pos_bound. reflexivity. }
      in_range_cases. apply zoom_in_range_1.
    + destruct (sym =? SDLK_q); [|destruct (sym =? SDLK_s)]; cbn;
        in_range_cases.
      apply zoom_in_range_1.
  - destruct (zoom_in_range_exponent _ HZ) as (n & Hn & Hzoom).
    destruct n as [|n].
    + rewrite handle_motion_unzoomed by exact Hzoom. cbn [fst snd].
      in_range_cases.
    + rewrite (handle_motion_zoomed MAX x y (mx, my) st (S n) Hzoom)
        by lia.
      cbn [fst snd]. split; [|in_range_cases].
      apply Forall_forall. intros c Hc.
      apply in_map_iff in Hc. destruct Hc as (z & <- & Hz).
      apply in_map_iff in Hz. destruct Hz as (t & <- & Ht).
      apply in_seq in Ht. cbn. apply zoom_in_range_power. lia.
  - cbn. in_range_cases.
Qed.

(** Every locals that [main] can hold is in range. *)
Lemma reachable_in_range (st : Locals) :
  reachable MAX st -> locals_in_range MAX st.
Proof.
  induction 1 as [|st e st' _ IH Hstep].
  - apply initial_locals_in_range.
  - now apply (handle_event_in_range e st IH).
Qed.

End Invariant.

(** ** Traces *)

Lemma bind_assoc {A B C} (m : Prog A) (f : A -> Prog B) (g : B -> Prog C) :
  bind (bind m f) g = bind m (fun a => bind (f a) g).
Proof.
  destruct m as [tr [a| |]]; unfold bind; cbn; try reflexivity.
  destruct (f a) as [tr' [b| |]]; cbn; try reflexivity.
  now rewrite app_assoc.
Qed.

Lemma bind_ext {A B} (m : Prog A) (k1 k2 : A -> Prog B) :
  (forall a, k1 a = k2 a) -> bind m k1 = bind m k2.
Proof.
  intros H. unfold bind. destruct (snd m) as [a| |]; try reflexivity.
  now rewrite H.
Qed.

Lemma count_calls_app p tr1 tr2 :
  count_calls p (tr1 ++ tr2) = (count_calls p tr1 + count_calls p tr2)%nat.
Proof. unfold count_calls. now rewrite filter_app, length_app. Qed.

Lemma count_calls_none p tr :
  Forall (fun c => p c = false) tr -> count_calls p tr = 0%nat.
Proof.
  unfold count_calls. induction 1 as [|c tr Hc _ IH]; [reflexivity|].
  cbn. now rewrite Hc.
Qed.

Lemma delivered_app tr1 tr2 :
  delivered (tr1 ++ tr2) = delivered tr1 ++ delivered tr2.
Proof.
  induction tr1 as [|c tr1 IH]; [reflexivity|].
  destruct c; cbn; try exact IH. destruct result; cbn; now rewrite ?IH.
Qed.

Lemma delivered_none tr :
  Forall (fun c => is_handler_call c = true) tr -> delivered tr = [].
Proof.
  induction 1 as [|c tr Hc _ IH]; [reflexivity|].
  destruct c; try discriminate Hc; exact IH.
Qed.

Lemma for_loop_handler_calls fuel x y i Zoom :
  Forall (fun c => is_handler_call c = true) (fst (for_loop fuel x y i Zoom)).
Proof.
  revert i. induction fuel as [|fuel IH]; intros i; [constructor|].
  cbn [for_loop]. destruct (i <=? Zoom); [|constructor].
  rewrite bind_call. cbn [fst]. constructor; [reflexivity|apply IH].
Qed.

(** The handling of an event neither polls, nor draws, nor waits. *)
Lemma handle_event_handler_calls MAX e st :
  Forall (fun c => is_handler_call c = true) (fst (handle_event MAX e st)).
Proof.
  destruct e as [ev [mx my]]. destruct ev as [|wev d1 d2|wy|sym|x y|ty];
    unfold handle_event; cbn [event].
  - constructor.
  - destruct (wev =? _); cbn; repeat constructor.
  - cbn. repeat constructor.
  - destruct (sym =? SDLK_f); [|destruct (sym =? SDLK_q);
      [|destruct (sym =? SDLK_s)]]; cbn; repeat constructor.
  - destruct (Zoom_Factor st >? 1); [|constructor].
    apply bind_Forall; [apply for_loop_handler_calls|constructor].
  - constructor.
Qed.

(** ** The polling loop *)

Section Polling.

Variable MAX : Z.

(** The polling loop handles the events in order and ends on the poll
    that finds the queue empty. *)
Lemma poll_loop_dispatch (events : list Polled) (st : Locals) :
  poll_loop MAX events st =
  bind (dispatch MAX events st)
       (fun st' => bind (call (SDL_PollEvent None)) (fun _ => ret st')).
Proof.
  revert st. induction events as [|e events IH]; intros st; [reflexivity|].
  cbn [poll_loop dispatch]. rewrite !bind_assoc.
  apply bind_ext. intros _. apply bind_ext. intros st'. apply IH.
Qed.

End Polling.

Lemma bind_ret_l {A B} (a : A) (k : A -> Prog B) : bind (ret a) k = k a.
Proof. unfold bind. cbn. now destruct (k a). Qed.

Lemma polling_calls_not (p : Call -> bool) tr :
  (forall c, is_polling_call c = true -> p c = false) ->
  Forall (fun c => is_polling_call c = true) tr ->
  Forall (fun c => p c = false) tr.
Proof. intros Hp H. eapply Forall_impl; [|exact H]. exact Hp. Qed.

Lemma handler_call_polling c :
  is_handler_call c = true -> is_polling_call c = true.
Proof. now destruct c. Qed.

Section Loops.

Variables MAX PERIOD : Z.

Lemma dispatch_app (events1 events2 : list Polled) (st : Locals) :
  dispatch MAX (events1 ++ events2) st =
  bind (dispatch MAX events1 st) (dispatch MAX events2).
Proof.
  revert st. induction events1 as [|e events1 IH]; intros st.
  - cbn [app dispatch]. now rewrite bind_ret_l.
  - cbn [app dispatch]. rewrite !bind_assoc.
    apply bind_ext. intros _. apply bind_ext. intros st'. apply IH.
Qed.

Lemma dispatch_polling_calls (events : list Polled) (st : Locals) :
  Forall (fun c => is_polling_call c = true) (fst (dispatch MAX events st)).
Proof.
  revert st. induction events as [|e events IH]; intros st; [constructor|].
  cbn [dispatch]. rewrite bind_call. cbn [fst].
  constructor; [reflexivity|].
  apply bind_Forall; [|intros; apply IH].
  eapply Forall_impl; [|apply handle_event_handler_calls].
  exact handler_call_polling.
Qed.

(** When every event is handled to its end, the trace shows each of them
    delivered, in order. *)
Lemma dispatch_delivered (events : list Polled) :
  forall st st',
    snd (dispatch MAX events st) = Done st' ->
    delivered (fst (dispatch MAX events st)) = map event events.
Proof.
  induction events as [|e events IH]; intros st st' H; [reflexivity|].
  cbn [dispatch] in *. rewrite bind_call in *. cbn [fst snd] in *.
  destruct (bind_snd_Done _ _ _ H) as (st1 & _ & H2 & ->).
  cbn [delivered map]. rewrite delivered_app, (IH _ _ H2).
  rewrite delivered_none by apply handle_event_handler_calls.
  reflexivity.
Qed.

(** A quit signal ends [main] with the success status, whatever the
    locals. *)
Lemma handle_event_quit (e : Polled) (st : Locals) :
  is_quit_signal (event e) = true ->
  handle_event MAX e st = ([], Exit EXIT_SUCCESS).
Proof.
  destruct e as [ev ms]. destruct ev; cbn [event is_quit_signal];
    try discriminate; [reflexivity|].
  intros H. apply Z.eqb_eq in H. subst sym. reflexivity.
Qed.

Lemma for_loop_no_exit fuel x y i Zoom status :
  snd (for_loop fuel x y i Zoom) <> Exit status.
Proof.
  revert i. induction fuel as [|fuel IH]; intros i; [discriminate|].
  cbn [for_loop]. destruct (i <=? Zoom); [|discriminate].
  rewrite bind_call. cbn [snd]. apply IH.
Qed.

(** Only a quit signal makes the handling of an event leave [main]. *)
Lemma handle_event_exit (e : Polled) (st : Locals) (status : Z) :
  snd (handle_event MAX e st) = Exit status ->
  is_quit_signal (event e) = true /\ status = EXIT_SUCCESS.
Proof.
  destruct e as [ev [mx my]]. destruct ev as [|wev d1 d2|wy|sym|x y|ty];
    unfold handle_event; cbn [event is_quit_signal].
  - cbn. intros [= <-]. now split.
  - destruct (wev =? _); discriminate.
  - discriminate.
  - destruct (sym =? SDLK_f); [discriminate|].
    destruct (sym =? SDLK_q); [cbn; intros [= <-]; now split|].
    destruct (sym =? SDLK_s); discriminate.
  - destruct (Zoom_Factor st >? 1); [|discriminate].
    unfold bind.
    destruct (snd (for_loop for_fuel x y 1 (Zoom_Factor st))) eqn:E;
      cbn; try discriminate.
    now apply for_loop_no_exit in E.
  - discriminate.
Qed.

(** The wait of a frame, for a period that fits an [unsigned int]. *)
Lemma pace_period (f : Frame) :
  0 <= PERIOD < 2 ^ 32 ->
  pace PERIOD (start_ticks f) (end_ticks f) =
  ((if Elapsed_Time f <? PERIOD
    then [SDL_Delay (PERIOD - Elapsed_Time f)] else []), Done tt).
Proof.
  intros HP. unfold pace, Elapsed_Time.
  rewrite uint32_sub, (uint32_small PERIOD) by exact HP.
  pose proof (uint32_range (end_ticks f - start_ticks f)) as Hr.
  destruct (Z.ltb_spec (uint32 (end_ticks f - start_ticks f)) PERIOD).
  - rewrite uint32_small by lia. reflexivity.
  - reflexivity.
Qed.

Lemma pace_Done (t0 t1 : Z) : snd (pace PERIOD t0 t1) = Done tt.
Proof. unfold pace. now destruct (_ <? _). Qed.

Lemma pace_calls (t0 t1 : Z) :
  Forall (fun c => is_SDL_Delay c = true) (fst (pace PERIOD t0 t1)).
Proof. unfold pace. destruct (_ <? _); cbn; repeat constructor. Qed.

(** An iteration whose polling loop falls through: the frame draws once,
    reads the clock and waits. *)
Lemma frame_Done (f : Frame) (st st' : Locals) (tr : list Call) :
  poll_loop MAX (pending f) st = (tr, Done st') ->
  frame MAX PERIOD f st =
  (SDL_GetTicks (start_ticks f) :: tr
     ++ [ViewportDrawImage; SDL_GetTicks (end_ticks f)]
     ++ fst (pace PERIOD (start_ticks f) (end_ticks f)),
   Done st').
Proof.
  intros H. unfold frame. rewrite bind_call, H.
  unfold bind at 1. cbn [fst snd]. rewrite !bind_call.
  unfold bind. rewrite pace_Done. cbn [fst snd ret].
  now rewrite app_nil_r.
Qed.

(** An iteration whose polling loop leaves [main]: nothing follows. *)
Lemma frame_Exit (f : Frame) (st : Locals) (tr : list Call) (status : Z) :
  poll_loop MAX (pending f) st = (tr, Exit status) ->
  frame MAX PERIOD f st = (SDL_GetTicks (start_ticks f) :: tr, Exit status).
Proof.
  intros H. unfold frame. rewrite bind_call, H. reflexivity.
Qed.

End Loops.

(** ** How the loops end *)

Section Endings.

Variables MAX PERIOD : Z.

Lemma poll_loop_Exit (events : list Polled) :
  forall st status,
    snd (poll_loop MAX events st) = Exit status ->
    existsb quits events = true /\ status = EXIT_SUCCESS.
Proof.
  induction events as [|e events IH]; intros st status H;
    [discriminate|].
  cbn [poll_loop] in H. rewrite bind_call in H. cbn [snd] in H.
  cbn [existsb]. unfold bind in H.
  destruct (snd (handle_event MAX e st)) as [st1|s|] eqn:E;
    cbn [snd] in H; try discriminate.
  - destruct (IH _ _ H) as [-> ->]. now rewrite orb_true_r.
  - injection H as ->. apply handle_event_exit in E.
    destruct E as [E ->]. unfold quits. now rewrite E.
Qed.

Lemma poll_loop_Done (events : list Polled) :
  forall st st',
    snd (poll_loop MAX events st) = Done st' ->
    existsb quits events = false.
Proof.
  induction events as [|e events IH]; intros st st' H; [reflexivity|].
  cbn [poll_loop] in H. rewrite bind_call in H. cbn [snd] in H.
  destruct (bind_snd_Done _ _ _ H) as (st1 & H1 & H2 & _).
  cbn [existsb]. rewrite (IH _ _ H2), orb_false_r.
  unfold quits. destruct (is_quit_signal (event e)) eqn:E; [|reflexivity].
  rewrite (handle_event_quit MAX e st E) in H1. discriminate.
Qed.

(** An iteration ends the way its polling loop does. *)
Lemma frame_ending (f : Frame) (st : Locals) :
  snd (frame MAX PERIOD f st) = snd (poll_loop MAX (pending f) st).
Proof.
  destruct (poll_loop MAX (pending f) st) as [tr [st'|status|]] eqn:E.
  - now rewrite (frame_Done MAX PERIOD f st st' tr E).
  - now rewrite (frame_Exit MAX PERIOD f st tr status E).
  - unfold frame. rewrite bind_call, E. reflexivity.
Qed.

Lemma main_loop_Exit (frames : list Frame) :
  forall st status,
    snd (main_loop MAX PERIOD frames st) = Exit status ->
    has_quit_signal frames = true /\ status = EXIT_SUCCESS.
Proof.
  induction frames as [|f frames IH]; intros st status H; [discriminate|].
  cbn [main_loop] in H. unfold has_quit_signal. cbn [existsb].
  unfold bind in H.
  destruct (snd (frame MAX PERIOD f st)) as [st1|s|] eqn:E;
    cbn [snd] in H; try discriminate.
  - destruct (IH _ _ H) as [Hq ->]. unfold has_quit_signal in Hq.
    now rewrite Hq, orb_true_r.
  - injection H as ->. rewrite frame_ending in E.
    apply poll_loop_Exit in E. destruct E as [E ->].
    now rewrite E.
Qed.

Lemma main_loop_Done (frames : list Frame) :
  forall st st',
    snd (main_loop MAX PERIOD frames st) = Done st' ->
    has_quit_signal frames = false.
Proof.
  induction frames as [|f frames IH]; intros st st' H; [reflexivity|].
  cbn [main_loop] in H.
  destruct (bind_snd_Done _ _ _ H) as (st1 & H1 & H2 & _).
  unfold has_quit_signal. cbn [existsb].
  rewrite frame_ending in H1. apply poll_loop_Done in H1.
  rewrite H1. exact (IH _ _ H2).
Qed.

End Endings.

(** ** Programs in range *)

Lemma prog_in_range_ret {A} MAX (Q : A -> Prop) (a : A) :
  Q a -> prog_in_range MAX Q (ret a).
Proof.
  intros H. repeat split; [constructor|discriminate|].
  now intros ? [= <-].
Qed.

Lemma prog_in_range_call MAX (c : Call) :
  call_in_range MAX c -> prog_in_range MAX (fun _ => True) (call c).
Proof. intros H. repeat split; [now repeat constructor|discriminate]. Qed.

Lemma prog_in_range_exit {A} MAX (Q : A -> Prop) status :
  prog_in_range MAX Q (@exit A status).
Proof. repeat split; [constructor|discriminate|discriminate]. Qed.

Lemma prog_in_range_bind {A B} MAX (Q : A -> Prop) (R : B -> Prop)
    (m : Prog A) (k : A -> Prog B) :
  prog_in_range MAX Q m ->
  (forall a, Q a -> prog_in_range MAX R (k a)) ->
  prog_in_range MAX R (bind m k).
Proof.
  intros (Hcalls & Hang & HQ) Hk. unfold bind.
  destruct (snd m) as [a| |] eqn:E; try congruence.
  - destruct (Hk a (HQ a eq_refl)) as (Hcalls' & Hang' & HR).
    repeat split; cbn [fst snd]; try assumption.
    apply Forall_app. now split.
  - repeat split; cbn [fst snd]; try assumption; discriminate.
Qed.

Section RangeOfLoops.

Variables MAX PERIOD : Z.
Variable k : nat.
Hypothesis k_small : (k <= 29)%nat.
Hypothesis MAX_power : MAX = two_power_nat k.

Lemma poll_loop_in_range (events : list Polled) :
  forall st,
    locals_in_range MAX st ->
    prog_in_range MAX (locals_in_range MAX) (poll_loop MAX events st).
Proof.
  induction events as [|e events IH]; intros st Hst; cbn [poll_loop].
  - eapply prog_in_range_bind; [now apply prog_in_range_call|].
    intros _ _. now apply prog_in_range_ret.
  - eapply prog_in_range_bind; [now apply prog_in_range_call|].
    intros _ _. eapply prog_in_range_bind; [|exact IH].
    exact (handle_event_in_range MAX k k_small MAX_power e st Hst).
Qed.

Lemma frame_in_range (f : Frame) (st : Locals) :
  locals_in_range MAX st ->
  prog_in_range MAX (locals_in_range MAX) (frame MAX PERIOD f st).
Proof.
  intros Hst. unfold frame.
  eapply prog_in_range_bind; [now apply prog_in_range_call|]. intros _ _.
  eapply prog_in_range_bind; [now apply poll_loop_in_range|].
  intros st' Hst'.
  eapply prog_in_range_bind; [now apply prog_in_range_call|]. intros _ _.
  eapply prog_in_range_bind; [now apply prog_in_range_call|]. intros _ _.
  eapply prog_in_range_bind with (Q := fun _ => True).
  - unfold pace. destruct (_ <? _);
      [now apply prog_in_range_call|now apply prog_in_range_ret].
  - intros _ _. now apply prog_in_range_ret.
Qed.

Lemma main_loop_in_range (frames : list Frame) :
  forall st,
    locals_in_range MAX st ->
    prog_in_range MAX (locals_in_range MAX) (main_loop MAX PERIOD frames st).
Proof.
  induction frames as [|f frames IH]; intros st Hst; cbn [main_loop].
  - now apply prog_in_range_ret.
  - eapply prog_in_range_bind; [now apply frame_in_range|exact IH].
Qed.

Lemma main_in_range (argv : list string) (env : Environment)
    (frames : list Frame) :
  prog_in_range MAX (locals_in_range MAX) (main MAX PERIOD argv env frames).
Proof.
  unfold main.
  repeat first
    [ apply prog_in_range_exit
    | apply main_loop_in_range;
      now apply (initial_locals_in_range MAX k)
    | match goal with
      | |- prog_in_range _ _ (if ?b then _ else _) => destruct b
      | |- prog_in_range _ _ (bind (call _) _) =>
          eapply prog_in_range_bind;
          [now apply prog_in_range_call|intros _ _]
      end ].
Qed.

(** With a quit signal among its events, the loop leaves [main] with the
    success status; without one it is still running when the supplied
    frames are used up. *)
Lemma main_loop_ending (frames : list Frame) (st : Locals) :
  locals_in_range MAX st ->
  if has_quit_signal frames
  then snd (main_loop MAX PERIOD frames st) = Exit EXIT_SUCCESS
  else exists st', snd (main_loop MAX PERIOD frames st) = Done st'.
Proof.
  intros Hst.
  destruct (main_loop_in_range frames st Hst) as (_ & Hang & _).
  destruct (snd (main_loop MAX PERIOD frames st)) as [st'|status|] eqn:E;
    try congruence.
  - rewrite (main_loop_Done _ _ _ _ _ E). now exists st'.
  - destruct (main_loop_Exit _ _ _ _ _ E) as [-> ->]. reflexivity.
Qed.

End RangeOfLoops.

(** ** The flipping mode along a run *)

Lemma next_mode_in_range (m : Z) : mode_in_range (next_mode m).
Proof. unfold mode_in_range, next_mode. apply Z.mod_pos_bound. reflexivity. Qed.

Lemma next_mode_step (m : Z) :
  mode_in_range m -> next_mode m = if m =? 3 then 0 else m + 1.
Proof.
  unfold mode_in_range, next_mode, VIEWPORT_FLIPPING_MODE_IDS_COUNT.
  intros H. destruct (Z.eqb_spec m 3) as [->|E]; [reflexivity|].
  apply Z.mod_small. lia.
Qed.

Lemma next_mode_four (m : Z) :
  mode_in_range m -> next_mode (next_mode (next_mode (next_mode m))) = m.
Proof.
  unfold mode_in_range, VIEWPORT_FLIPPING_MODE_IDS_COUNT. intros H.
  assert (E : m = 0 \/ m = 1 \/ m = 2 \/ m = 3) by lia.
  destruct E as [->|[->|[->| ->]]]; reflexivity.
Qed.

Lemma for_loop_zoom_calls fuel x y i Zoom :
  Forall (fun c => is_ViewportSetZoomedArea c = true)
         (fst (for_loop fuel x y i Zoom)).
Proof.
  revert i. induction fuel as [|fuel IH]; intros i; [constructor|].
  cbn [for_loop]. destruct (i <=? Zoom); [|constructor].
  rewrite bind_call. cbn [fst]. constructor; [reflexivity|apply IH].
Qed.

(** A trace none of whose calls is [ViewportSetFlippingMode]. *)
Ltac other_calls :=
  repeat (apply Forall_cons; [intros ? [=]|]); apply Forall_nil.

Section Modes.

Variable MAX : Z.

(** Whatever the zoom factor, an event leaves the mode in range and
    passes only modes in range to [ViewportSetFlippingMode]. *)
Lemma handle_event_modes (e : Polled) (st : Locals) :
  mode_in_range (Flipping_Mode st) ->
  Forall (fun c => forall m, c = ViewportSetFlippingMode m -> mode_in_range m)
         (fst (handle_event MAX e st)) /\
  forall st', snd (handle_event MAX e st) = Done st' ->
              mode_in_range (Flipping_Mode st').
Proof.
  intros HM. destruct e as [ev [mx my]].
  destruct ev as [|wev d1 d2|wy|sym|x y|ty].
  - cbn. split; [constructor|discriminate].
  - unfold handle_event. cbn [event]. destruct (wev =? _); cbn.
    + split; [other_calls|now intros ? [= <-]].
    + split; [constructor|now intros ? [= <-]].
  - rewrite handle_wheel. cbn [fst snd].
    split; [other_calls|now intros ? [= <-]].
  - destruct (Z.eqb_spec sym SDLK_f) as [->|Hf].
    + rewrite handle_key_f by exact HM. cbn [fst snd]. split.
      * apply Forall_cons; [|apply Forall_nil].
        intros m [= <-]. apply next_mode_in_range.
      * intros ? [= <-]. apply next_mode_in_range.
    + unfold handle_event. cbn [event].
      rewrite (proj2 (Z.eqb_neq _ _) Hf).
      destruct (sym =? SDLK_q); [|destruct (sym =? SDLK_s)]; cbn.
      * split; [constructor|discriminate].
      * split; [other_calls|now intros ? [= <-]].
      * split; [constructor|now intros ? [= <-]].
  - unfold handle_event. cbn [event].
    destruct (Zoom_Factor st >? 1);
      [|split; [constructor|now intros ? [= <-]]].
    split.
    + apply bind_Forall; [|constructor].
      eapply Forall_impl; [|apply for_loop_zoom_calls].
      intros c Hc m ->. discriminate.
    + intros st' H. apply bind_snd_Done in H.
      destruct H as (_ & _ & H & _). now injection H as <-.
  - cbn. split; [constructor|now intros ? [= <-]].
Qed.

Lemma reachable_mode_in_range (st : Locals) :
  reachable MAX st -> mode_in_range (Flipping_Mode st).
Proof.
  induction 1 as [|st e st' _ IH Hstep].
  - unfold mode_in_range. cbn. unfold VIEWPORT_FLIPPING_MODE_ID_NORMAL,
      VIEWPORT_FLIPPING_MODE_IDS_COUNT. lia.
  - exact (proj2 (handle_event_modes e st IH) st' Hstep).
Qed.

Lemma dispatch_cons_Done (e : Polled) (events : list Polled)
    (st st1 : Locals) (tr : list Call) :
  handle_event MAX e st = (tr, Done st1) ->
  dispatch MAX (e :: events) st =
  (SDL_PollEvent (Some (event e)) :: tr ++ fst (dispatch MAX events st1),
   snd (dispatch MAX events st1)).
Proof.
  intros H. cbn [dispatch]. rewrite bind_call, H. reflexivity.
Qed.

End Modes.

(** ** Iterations *)

Lemma filter_none (p : Call -> bool) tr :
  Forall (fun c => p c = false) tr -> filter p tr = [].
Proof.
  induction 1 as [|c tr Hc _ IH]; [reflexivity|]. cbn. now rewrite Hc.
Qed.

Lemma delay_not_viewport c :
  is_SDL_Delay c = true -> is_viewport_operation c = false.
Proof. now destruct c. Qed.

Lemma polling_not_delay c :
  is_polling_call c = true -> is_SDL_Delay c = false.
Proof. now destruct c. Qed.

Lemma polling_not_draw c :
  is_polling_call c = true -> is_ViewportDrawImage c = false.
Proof. now destruct c. Qed.

Section Iterations.

Variables MAX PERIOD : Z.

(** A polling loop that falls through has handled every event to its
    end and then found the queue empty. *)
Lemma poll_loop_Done_dispatch (events : list Polled) (st st' : Locals) :
  snd (poll_loop MAX events st) = Done st' ->
  exists tr,
    dispatch MAX events st = (tr, Done st') /\
    poll_loop MAX events st = (tr ++ [SDL_PollEvent None], Done st').
Proof.
  rewrite poll_loop_dispatch. intros H.
  destruct (dispatch MAX events st) as [tr [st1|status|]] eqn:E;
    try discriminate H.
  unfold bind in H |- *. cbn in H |- *. injection H as ->.
  now exists tr.
Qed.

Lemma poll_loop_polling_calls (events : list Polled) (st : Locals) :
  Forall (fun c => is_polling_call c = true)
         (fst (poll_loop MAX events st)).
Proof.
  rewrite poll_loop_dispatch.
  apply bind_Forall; [apply dispatch_polling_calls|].
  intros st' _. cbn. repeat constructor.
Qed.

(** A quit signal after events handled to their end: the polling loop
    leaves [main] right after the poll that delivers the signal. *)
Lemma poll_loop_quit (pre post : list Polled) (e : Polled)
    (st st' : Locals) (tr : list Call) :
  quits e = true ->
  dispatch MAX pre st = (tr, Done st') ->
  poll_loop MAX (pre ++ e :: post) st =
  (tr ++ [SDL_PollEvent (Some (event e))], Exit EXIT_SUCCESS).
Proof.
  intros Hq Hpre.
  assert (He : dispatch MAX (e :: post) st' =
               ([SDL_PollEvent (Some (event e))], Exit EXIT_SUCCESS)).
  { cbn [dispatch]. rewrite bind_call, (handle_event_quit MAX e st' Hq).
    reflexivity. }
  rewrite poll_loop_dispatch, dispatch_app.
  rewrite (bind_Done _ _ _ _ Hpre), He. reflexivity.
Qed.

End Iterations.

(** ** Runs on concrete inputs *)

(** The runs below are of a viewer configured with a maximum zoom factor
    of 8 and a period of 16 ms. *)

Example powers_of_two_up_to_3 : powers_of_two_up_to 3 = [1; 2; 4; 8].
Proof. reflexivity. Qed.

Example motion_at_zoom_4 :
  handle_event 8 (at_mouse (SDL_MOUSEMOTION 10 20)) (mkLocals 4 0) =
  ([ViewportSetZoomedArea 10 20 1; ViewportSetZoomedArea 10 20 2;
    ViewportSetZoomedArea 10 20 4], Done (mkLocals 4 0)).
Proof. reflexivity. Qed.

Example wheel_up_at_zoom_4 :
  handle_event 8 (at_mouse (SDL_MOUSEWHEEL 1)) (mkLocals 4 0) =
  ([SDL_GetMouseState 30 40; ViewportSetZoomedArea 30 40 8],
   Done (mkLocals 8 0)).
Proof. reflexivity. Qed.

Example wheel_up_at_maximum :
  handle_event 8 (at_mouse (SDL_MOUSEWHEEL 1)) (mkLocals 8 0) =
  ([SDL_GetMouseState 30 40; ViewportSetZoomedArea 30 40 8],
   Done (mkLocals 8 0)).
Proof. reflexivity. Qed.

Example wheel_down_at_zoom_1 :
  handle_event 8 (at_mouse (SDL_MOUSEWHEEL (-1))) (mkLocals 1 0) =
  ([SDL_GetMouseState 30 40; ViewportSetZoomedArea 30 40 1],
   Done (mkLocals 1 0)).
Proof. reflexivity. Qed.

Example key_f_from_both :
  handle_event 8 (at_mouse (SDL_KEYDOWN SDLK_f)) (mkLocals 4 3) =
  ([ViewportSetFlippingMode 0], Done (mkLocals 1 0)).
Proof. reflexivity. Qed.

Example main_run :
  main 8 16 ["viewer"; "image.png"]%string (mkEnvironment 0 7 1 0)
    [mkFrame 100 [at_mouse (SDL_KEYDOWN SDLK_f)] 120;
     mkFrame 125 [at_mouse (SDL_KEYDOWN SDLK_q)] 126] =
  ([SDL_Init 0; atexit_MainExit; IMG_Init 7;
    IMG_Load "image.png" 1;
    ViewportInitialize "Image Viewer - image.png" 0; SDL_FreeSurface;
    SDL_GetTicks 100;
    SDL_PollEvent (Some (SDL_KEYDOWN SDLK_f)); ViewportSetFlippingMode 1;
    SDL_PollEvent None; ViewportDrawImage; SDL_GetTicks 120;
    SDL_GetTicks 125; SDL_PollEvent (Some (SDL_KEYDOWN SDLK_q))],
   Exit EXIT_SUCCESS).
Proof. reflexivity. Qed.

Example main_image_not_loaded :
  main 8 16 ["viewer"; "image.png"]%string (mkEnvironment 0 7 0 0) [] =
  ([SDL_Init 0; atexit_MainExit; IMG_Init 7; IMG_Load "image.png" 0;
    printf (Error_IMG_Load "image.png")],
   Exit EXIT_FAILURE).
Proof. reflexivity. Qed.

Example one_frame :
  main_loop 8 16
    [mkFrame 100 [at_mouse (SDL_MOUSEWHEEL 1);
                  at_mouse (SDL_MOUSEMOTION 5 6)] 104]
    initial_locals =
  ([SDL_GetTicks 100;
    SDL_PollEvent (Some (SDL_MOUSEWHEEL 1));
    SDL_GetMouseState 30 40; ViewportSetZoomedArea 30 40 2;
    SDL_PollEvent (Some (SDL_MOUSEMOTION 5 6));
    ViewportSetZoomedArea 5 6 1; ViewportSetZoomedArea 5 6 2;
    SDL_PollEvent None;
    ViewportDrawImage; SDL_GetTicks 104; SDL_Delay 12],
   Done (mkLocals 2 0)).
Proof. reflexivity. Qed.

Example quit_in_second_frame :
  main_loop 8 16
    [mkFrame 100 [] 120;
     mkFrame 130 [at_mouse (SDL_KEYDOWN SDLK_s); at_mouse SDL_QUIT;
                  at_mouse (SDL_KEYDOWN SDLK_f)] 131]
    initial_locals =
  ([SDL_GetTicks 100; SDL_PollEvent None; ViewportDrawImage; SDL_GetTicks 120;
    SDL_GetTicks 130;
    SDL_PollEvent (Some (SDL_KEYDOWN SDLK_s)); ViewportScaleImage;
    SDL_PollEvent (Some SDL_QUIT)],
   Exit EXIT_SUCCESS).
Proof. reflexivity. Qed.

Lemma reachable_zoom_4 : reachable 8 (mkLocals 4 0).
Proof.
  apply reachable_event with (st := mkLocals 2 0)
                             (e := at_mouse (SDL_MOUSEWHEEL 1));
    [|reflexivity].
  apply reachable_event with (st := initial_locals)
                             (e := at_mouse (SDL_MOUSEWHEEL 1));
    [|reflexivity].
  apply reachable_initial.
Defined.

(** ** The properties of the event loop shell *)

(** C1. Mouse motion while zoomed.  For locals that [main] can hold, with
    a maximum zoom factor [2^k], [k <= 29]: the zoom factor is some [2^n],
    and a mouse-motion event at a zoom factor greater than 1 makes exactly
    the calls [ViewportSetZoomedArea(x, y, 1)], [(x, y, 2)], ...,
    [(x, y, 2^n)], in this order, with the coordinates of the event; at
    zoom factor 1 it makes no call at all.  The locals are unchanged. *)
Theorem mouse_motion_steps (MAX : Z) (k : nat) (st : Locals)
    (x y : Z) (ms : Z * Z) :
  (k <= 29)%nat -> MAX = two_power_nat k -> reachable MAX st ->
  exists n : nat,
    Zoom_Factor st = two_power_nat n /\
    handle_event MAX (mkPolled (SDL_MOUSEMOTION x y) ms) st =
    ((if Zoom_Factor st >? 1
      then map (ViewportSetZoomedArea x y) (powers_of_two_up_to n)
      else []),
     Done st).
Proof.
  intros Hk HMAX Hst.
  destruct (reachable_in_range MAX k Hk HMAX st Hst) as [HZ _].
  destruct (zoom_in_range_exponent MAX k Hk HMAX _ HZ) as (n & Hn & Hzoom).
  exists n. split; [exact Hzoom|].
  destruct n as [|n].
  - rewrite handle_motion_unzoomed by exact Hzoom. now rewrite Hzoom.
  - rewrite (handle_motion_zoomed MAX x y ms st (S n) Hzoom) by lia.
    rewrite Hzoom.
    assert (two_power_nat 1 <= two_power_nat (S n))
      by (apply two_power_nat_le; lia).
    change (two_power_nat 1) with 2 in *.
    replace (two_power_nat (S n) >? 1) with true
      by (symmetry; rewrite Z.gtb_ltb; apply Z.ltb_lt; lia).
    reflexivity.
Qed.

Lemma mouse_motion_steps_witness :
  exists n : nat,
    Zoom_Factor (mkLocals 4 0) = two_power_nat n /\
    handle_event 8 (mkPolled (SDL_MOUSEMOTION 10 20) (30, 40)) (mkLocals 4 0) =
    ((if Zoom_Factor (mkLocals 4 0) >? 1
      then map (ViewportSetZoomedArea 10 20) (powers_of_two_up_to n)
      else []),
     Done (mkLocals 4 0)).
Proof.
  apply (mouse_motion_steps 8 3 (mkLocals 4 0) 10 20 (30, 40)).
  - lia.
  - reflexivity.
  - exact reachable_zoom_4.
Defined.

(** C2. Reset coupling.  From any locals, a size-changed window event
    calls [ViewportSetDimensions], an 'f' key press calls
    [ViewportSetFlippingMode] and an 's' key press calls
    [ViewportScaleImage]; each makes that one call and leaves the zoom
    factor of the shell at 1. *)
Theorem reset_events_zoom_factor_one (MAX : Z) (st : Locals)
    (data1 data2 : Z) (ms : Z * Z) :
  (exists st',
     handle_event MAX
       (mkPolled (SDL_WINDOWEVENT SDL_WINDOWEVENT_SIZE_CHANGED data1 data2) ms)
       st = ([ViewportSetDimensions data1 data2], Done st') /\
     Zoom_Factor st' = 1) /\
  (exists mode st',
     handle_event MAX (mkPolled (SDL_KEYDOWN SDLK_f) ms) st =
     ([ViewportSetFlippingMode mode], Done st') /\
     Zoom_Factor st' = 1) /\
  (exists st',
     handle_event MAX (mkPolled (SDL_KEYDOWN SDLK_s) ms) st =
     ([ViewportScaleImage], Done st') /\
     Zoom_Factor st' = 1).
Proof.
  repeat split.
  - eexists. split; [apply handle_resize|reflexivity].
  - do 2 eexists. split; [reflexivity|reflexivity].
  - eexists. split; [apply handle_key_s|reflexivity].
Qed.

(** C3. The zoom factor of the shell.  With a maximum zoom factor [2^k],
    [k <= 29]: the zoom factor starts at 1; along any run of [main], over
    any arguments, start-up results and events, every factor passed to
    [ViewportSetZoomedArea] is a power of two between 1 and the maximum,
    and so is the zoom factor held by the shell, after every event and
    when the supplied frames are used up. *)
Theorem zoom_factor_in_range (MAX PERIOD : Z) (k : nat)
    (argv : list string) (env : Environment) (frames : list Frame) :
  (k <= 29)%nat -> MAX = two_power_nat k ->
  Zoom_Factor initial_locals = 1 /\
  (forall x y z,
      In (ViewportSetZoomedArea x y z) (fst (main MAX PERIOD argv env frames)) ->
      zoom_in_range MAX z) /\
  (forall st, snd (main MAX PERIOD argv env frames) = Done st ->
              zoom_in_range MAX (Zoom_Factor st)) /\
  (forall st, reachable MAX st -> zoom_in_range MAX (Zoom_Factor st)).
Proof.
  intros Hk HMAX.
  destruct (main_in_range MAX PERIOD k Hk HMAX argv env frames)
    as (Hcalls & _ & Hdone).
  split; [reflexivity|]. split; [|split].
  - intros x y z Hin.
    exact (proj1 (Forall_forall _ _) Hcalls _ Hin).
  - intros st Hst. exact (proj1 (Hdone st Hst)).
  - intros st Hst. exact (proj1 (reachable_in_range MAX k Hk HMAX st Hst)).
Qed.

Lemma zoom_factor_in_range_witness :
  let argv := ["viewer"; "image.png"]%string in
  let env := mkEnvironment 0 7 1 0 in
  let frames :=
    [mkFrame 100 [at_mouse (SDL_MOUSEWHEEL 1);
                  at_mouse (SDL_MOUSEMOTION 5 6)] 104] in
  Zoom_Factor initial_locals = 1 /\
  (forall x y z,
      In (ViewportSetZoomedArea x y z) (fst (main 8 16 argv env frames)) ->
      zoom_in_range 8 z) /\
  (forall st, snd (main 8 16 argv env frames) = Done st ->
              zoom_in_range 8 (Zoom_Factor st)) /\
  (forall st, reachable 8 st -> zoom_in_range 8 (Zoom_Factor st)).
Proof.
  apply (zoom_factor_in_range 8 16 3); [lia|reflexivity].
Defined.

(** C4. The wheel.  For locals that [main] can hold, with a maximum zoom
    factor [2^k], [k <= 29]: a wheel event with [wheel.y > 0] (the wheel
    rotated toward the user, in the words of the source) multiplies the
    zoom factor by 2, or leaves it unchanged when it is the maximum; any
    other wheel event (rotated away from the user) divides it by 2, or
    leaves it unchanged when it is 1; then the event queries the mouse
    position and calls [ViewportSetZoomedArea] with that position and the
    resulting factor, which becomes the zoom factor of the shell. *)
Theorem wheel_event_zoom (MAX : Z) (k : nat) (st : Locals)
    (wheel_y Mouse_X Mouse_Y : Z) :
  (k <= 29)%nat -> MAX = two_power_nat k -> reachable MAX st ->
  let zoom :=
    if wheel_y >? 0 then zoom_increase MAX (Zoom_Factor st)
    else zoom_decrease (Zoom_Factor st) in
  handle_event MAX (mkPolled (SDL_MOUSEWHEEL wheel_y) (Mouse_X, Mouse_Y)) st =
  ([SDL_GetMouseState Mouse_X Mouse_Y;
    ViewportSetZoomedArea Mouse_X Mouse_Y zoom],
   Done (set_Zoom_Factor zoom st)).
Proof.
  intros Hk HMAX Hst zoom.
  destruct (reachable_in_range MAX k Hk HMAX st Hst) as [HZ _].
  rewrite handle_wheel. subst zoom. destruct (wheel_y >? 0).
  - now rewrite (proj1 (wheel_increase MAX k Hk HMAX _ HZ)).
  - now rewrite (proj1 (wheel_decrease MAX k Hk HMAX _ HZ)).
Qed.

Lemma wheel_event_zoom_witness :
  handle_event 8 (mkPolled (SDL_MOUSEWHEEL (-1)) (30, 40)) (mkLocals 4 0) =
  ([SDL_GetMouseState 30 40; ViewportSetZoomedArea 30 40 2],
   Done (mkLocals 2 0)).
Proof.
  apply (wheel_event_zoom 8 3 (mkLocals 4 0) (-1) 30 40).
  - lia.
  - reflexivity.
  - exact reachable_zoom_4.
Defined.

(** C5. The flip cycle.  For locals that [main] can hold: an 'f' key press
    passes to [ViewportSetFlippingMode], and stores, the mode that follows
    the current one in the cycle 0, 1, 2, 3, 0 (none, horizontal, vertical,
    both, none); four successive presses pass the four modes in turn and
    leave the mode of the shell where it was; whatever the event, a mode
    passed to [ViewportSetFlippingMode] is one of the four. *)
Theorem flip_cycle (MAX : Z) (st : Locals) (ms : Z * Z) :
  reachable MAX st ->
  let key_f := mkPolled (SDL_KEYDOWN SDLK_f) ms in
  let poll_f := SDL_PollEvent (Some (SDL_KEYDOWN SDLK_f)) in
  let m0 := Flipping_Mode st in
  let m1 := next_mode m0 in
  let m2 := next_mode m1 in
  let m3 := next_mode m2 in
  handle_event MAX key_f st =
    ([ViewportSetFlippingMode m1], Done (mkLocals 1 m1)) /\
  m1 = (if m0 =? 3 then 0 else m0 + 1) /\
  dispatch MAX [key_f; key_f; key_f; key_f] st =
    ([poll_f; ViewportSetFlippingMode m1; poll_f; ViewportSetFlippingMode m2;
      poll_f; ViewportSetFlippingMode m3; poll_f; ViewportSetFlippingMode m0],
     Done (mkLocals 1 m0)) /\
  (forall e m, In (ViewportSetFlippingMode m) (fst (handle_event MAX e st)) ->
               mode_in_range m).
Proof.
  intros Hst key_f poll_f m0 m1 m2 m3.
  pose proof (reachable_mode_in_range MAX st Hst) as HM.
  assert (H1 : handle_event MAX key_f st =
               ([ViewportSetFlippingMode m1], Done (mkLocals 1 m1)))
    by now apply handle_key_f.
  split; [exact H1|]. split; [now apply next_mode_step|]. split.
  - rewrite (dispatch_cons_Done MAX _ _ _ _ _ H1).
    rewrite (dispatch_cons_Done MAX _ _ _ _ _
               (handle_key_f MAX ms (mkLocals 1 m1) (next_mode_in_range m0))).
    rewrite (dispatch_cons_Done MAX _ _ _ _ _
               (handle_key_f MAX ms (mkLocals 1 m2) (next_mode_in_range m1))).
    rewrite (dispatch_cons_Done MAX _ _ _ _ _
               (handle_key_f MAX ms (mkLocals 1 m3) (next_mode_in_range m2))).
    cbn [dispatch ret fst snd app Flipping_Mode event key_f].
    fold m1 m2 m3. unfold m3, m2, m1.
    rewrite (next_mode_four m0 HM). reflexivity.
  - intros e m Hin.
    destruct (handle_event_modes MAX e st HM) as [Hcalls _].
    exact (proj1 (Forall_forall _ _) Hcalls _ Hin m eq_refl).
Qed.

Lemma flip_cycle_witness :
  dispatch 8 (repeat (at_mouse (SDL_KEYDOWN SDLK_f)) 4) (mkLocals 4 0) =
  ([SDL_PollEvent (Some (SDL_KEYDOWN SDLK_f)); ViewportSetFlippingMode 1;
    SDL_PollEvent (Some (SDL_KEYDOWN SDLK_f)); ViewportSetFlippingMode 2;
    SDL_PollEvent (Some (SDL_KEYDOWN SDLK_f)); ViewportSetFlippingMode 3;
    SDL_PollEvent (Some (SDL_KEYDOWN SDLK_f)); ViewportSetFlippingMode 0],
   Done (mkLocals 1 0)).
Proof.
  exact (proj1 (proj2 (proj2
    (flip_cycle 8 (mkLocals 4 0) (30, 40) reachable_zoom_4)))).
Defined.

(** C10. The wheel at the bounds.  From any locals, a wheel event calls
    [ViewportSetZoomedArea] exactly once, with the position reported by
    [SDL_GetMouseState]; a wheel-up event at the maximum zoom factor and a
    wheel-down event at zoom factor 1 make that call with the unchanged
    factor, which stays the zoom factor of the shell. *)
Theorem wheel_event_calls_once (MAX : Z) (st : Locals)
    (wheel_y up down Mouse_X Mouse_Y : Z) :
  0 < up -> down < 0 ->
  let wheel y := mkPolled (SDL_MOUSEWHEEL y) (Mouse_X, Mouse_Y) in
  (exists zoom,
     handle_event MAX (wheel wheel_y) st =
     ([SDL_GetMouseState Mouse_X Mouse_Y;
       ViewportSetZoomedArea Mouse_X Mouse_Y zoom],
      Done (set_Zoom_Factor zoom st))) /\
  count_calls is_ViewportSetZoomedArea
    (fst (handle_event MAX (wheel wheel_y) st)) = 1%nat /\
  handle_event MAX (wheel up) (mkLocals MAX (Flipping_Mode st)) =
    ([SDL_GetMouseState Mouse_X Mouse_Y;
      ViewportSetZoomedArea Mouse_X Mouse_Y MAX],
     Done (mkLocals MAX (Flipping_Mode st))) /\
  handle_event MAX (wheel down) (mkLocals 1 (Flipping_Mode st)) =
    ([SDL_GetMouseState Mouse_X Mouse_Y;
      ViewportSetZoomedArea Mouse_X Mouse_Y 1],
     Done (mkLocals 1 (Flipping_Mode st))).
Proof.
  intros Hup Hdown wheel. unfold wheel. rewrite !handle_wheel.
  cbn [fst Zoom_Factor]. repeat split.
  - eexists. reflexivity.
  - rewrite Z.ltb_irrefl.
    replace (up >? 0) with true
      by (symmetry; rewrite Z.gtb_ltb; now apply Z.ltb_lt).
    reflexivity.
  - replace (down >? 0) with false
      by (symmetry; rewrite Z.gtb_ltb; apply Z.ltb_ge; lia).
    reflexivity.
Qed.

Lemma wheel_event_calls_once_witness :
  handle_event 8 (mkPolled (SDL_MOUSEWHEEL 1) (30, 40)) (mkLocals 8 2) =
    ([SDL_GetMouseState 30 40; ViewportSetZoomedArea 30 40 8],
     Done (mkLocals 8 2)) /\
  handle_event 8 (mkPolled (SDL_MOUSEWHEEL (-1)) (30, 40)) (mkLocals 1 2) =
    ([SDL_GetMouseState 30 40; ViewportSetZoomedArea 30 40 1],
     Done (mkLocals 1 2)).
Proof.
  exact (proj2 (proj2
    (wheel_event_calls_once 8 (mkLocals 4 2) 1 1 (-1) 30 40
       ltac:(lia) ltac:(lia)))).
Defined.

(** C6. One drawing per iteration.  For an iteration of the main loop that
    does not end the program: its trace is the reading of the clock, the
    handling of every pending event in order, each after the poll that
    delivers it, the poll that finds the queue empty, one call of
    [ViewportDrawImage], the second reading of the clock and the wait.
    [ViewportDrawImage] is called exactly once in the iteration, after
    every pending event has been delivered and handled; the handling of the
    events does not draw, and the wait only sleeps. *)
Theorem draw_once_per_iteration (MAX PERIOD : Z) (f : Frame)
    (st st' : Locals) :
  snd (frame MAX PERIOD f st) = Done st' ->
  exists tr wait,
    fst (frame MAX PERIOD f st) =
      SDL_GetTicks (start_ticks f) :: tr
        ++ SDL_PollEvent None :: ViewportDrawImage
        :: SDL_GetTicks (end_ticks f) :: wait /\
    dispatch MAX (pending f) st = (tr, Done st') /\
    delivered tr = map event (pending f) /\
    count_calls is_ViewportDrawImage tr = 0%nat /\
    Forall (fun c => is_SDL_Delay c = true) wait /\
    count_calls is_ViewportDrawImage (fst (frame MAX PERIOD f st)) = 1%nat.
Proof.
  intros H. rewrite frame_ending in H.
  destruct (poll_loop_Done_dispatch MAX _ _ _ H) as (tr & Hd & Hp).
  exists tr, (fst (pace PERIOD (start_ticks f) (end_ticks f))).
  rewrite (frame_Done MAX PERIOD f st st' _ Hp). cbn [fst].
  assert (Hdraw : count_calls is_ViewportDrawImage tr = 0%nat).
  { apply count_calls_none.
    apply polling_calls_not with (1 := polling_not_draw).
    pose proof (dispatch_polling_calls MAX (pending f) st) as Hc.
    now rewrite Hd in Hc. }
  repeat split.
  - now rewrite <- app_assoc.
  - exact Hd.
  - pose proof (dispatch_delivered MAX (pending f) st st') as Hdel.
    rewrite Hd in Hdel. now apply Hdel.
  - exact Hdraw.
  - apply pace_calls.
  - change (SDL_GetTicks (start_ticks f) :: ?l)
      with ([SDL_GetTicks (start_ticks f)] ++ l).
    rewrite !count_calls_app, Hdraw.
    rewrite (count_calls_none is_ViewportDrawImage (fst (pace _ _ _))).
    + reflexivity.
    + eapply Forall_impl; [|apply pace_calls]. intros c. now destruct c.
Qed.

Lemma draw_once_per_iteration_witness :
  let f := mkFrame 100 [at_mouse (SDL_MOUSEWHEEL 1);
                        at_mouse (SDL_MOUSEMOTION 5 6)] 104 in
  exists tr wait,
    fst (frame 8 16 f initial_locals) =
      SDL_GetTicks (start_ticks f) :: tr
        ++ SDL_PollEvent None :: ViewportDrawImage
        :: SDL_GetTicks (end_ticks f) :: wait /\
    dispatch 8 (pending f) initial_locals = (tr, Done (mkLocals 2 0)) /\
    delivered tr = map event (pending f) /\
    count_calls is_ViewportDrawImage tr = 0%nat /\
    Forall (fun c => is_SDL_Delay c = true) wait /\
    count_calls is_ViewportDrawImage (fst (frame 8 16 f initial_locals))
      = 1%nat.
Proof.
  intros f.
  apply (draw_once_per_iteration 8 16 f initial_locals (mkLocals 2 0)).
  reflexivity.
Defined.

(** C8. Quit.  When the events of an iteration before a quit signal (the
    quit event or a 'q' key press) are handled to their end, the signal
    makes [main] return the success status right after the poll that
    delivers it: the events queued behind it are not delivered, the later
    frames are not run, and [ViewportDrawImage] is not called in that
    iteration. *)
Theorem quit_exits_immediately (MAX PERIOD : Z) (f : Frame)
    (frames : list Frame) (pre post : list Polled) (e : Polled)
    (st st' : Locals) (tr : list Call) :
  pending f = pre ++ e :: post ->
  is_quit_signal (event e) = true ->
  dispatch MAX pre st = (tr, Done st') ->
  main_loop MAX PERIOD (f :: frames) st =
    (SDL_GetTicks (start_ticks f) :: tr ++ [SDL_PollEvent (Some (event e))],
     Exit EXIT_SUCCESS) /\
  delivered (fst (main_loop MAX PERIOD (f :: frames) st)) =
    map event pre ++ [event e] /\
  count_calls is_ViewportDrawImage
    (fst (main_loop MAX PERIOD (f :: frames) st)) = 0%nat.
Proof.
  intros Hf Hq Hpre.
  assert (Hrun : main_loop MAX PERIOD (f :: frames) st =
            (SDL_GetTicks (start_ticks f)
               :: tr ++ [SDL_PollEvent (Some (event e))],
             Exit EXIT_SUCCESS)).
  { cbn [main_loop].
    apply bind_Exit, frame_Exit. rewrite Hf.
    now apply poll_loop_quit with (st' := st'). }
  rewrite Hrun. cbn [fst].
  pose proof (dispatch_polling_calls MAX pre st) as Hc.
  rewrite Hpre in Hc. cbn [fst] in Hc.
  repeat split.
  - cbn [delivered]. rewrite delivered_app. cbn [delivered].
    pose proof (dispatch_delivered MAX pre st st') as Hdel.
    rewrite Hpre in Hdel. cbn [fst snd] in Hdel.
    now rewrite (Hdel eq_refl).
  - change (SDL_GetTicks (start_ticks f) :: ?l)
      with ([SDL_GetTicks (start_ticks f)] ++ l).
    rewrite !count_calls_app.
    rewrite (count_calls_none is_ViewportDrawImage tr); [reflexivity|].
    now apply polling_calls_not with (1 := polling_not_draw).
Qed.

Lemma quit_exits_immediately_witness :
  let f := mkFrame 130 [at_mouse (SDL_KEYDOWN SDLK_s);
                        at_mouse (SDL_KEYDOWN SDLK_q);
                        at_mouse (SDL_KEYDOWN SDLK_f)] 131 in
  let frames := [mkFrame 140 [] 141] in
  main_loop 8 16 (f :: frames) (mkLocals 4 0) =
    ([SDL_GetTicks 130;
      SDL_PollEvent (Some (SDL_KEYDOWN SDLK_s)); ViewportScaleImage;
      SDL_PollEvent (Some (SDL_KEYDOWN SDLK_q))],
     Exit EXIT_SUCCESS) /\
  delivered (fst (main_loop 8 16 (f :: frames) (mkLocals 4 0))) =
    [SDL_KEYDOWN SDLK_s; SDL_KEYDOWN SDLK_q] /\
  count_calls is_ViewportDrawImage
    (fst (main_loop 8 16 (f :: frames) (mkLocals 4 0))) = 0%nat.
Proof.
  intros f frames.
  apply (quit_exits_immediately 8 16 f frames
           [at_mouse (SDL_KEYDOWN SDLK_s)] [at_mouse (SDL_KEYDOWN SDLK_f)]
           (at_mouse (SDL_KEYDOWN SDLK_q)) (mkLocals 4 0) (mkLocals 1 0)
           [SDL_PollEvent (Some (SDL_KEYDOWN SDLK_s)); ViewportScaleImage]);
    reflexivity.
Defined.

(** C9. Pacing.  For a frame period that fits an [unsigned int] and an
    iteration that does not end the program: after drawing, [main] reads
    the clock and calls [SDL_Delay] with the period minus the elapsed time
    exactly when the elapsed time, measured from the tick count taken at
    the start of the frame, is less than the period; otherwise it does not
    sleep.  Whatever the tick counts, the iteration makes the same viewport
    calls (every event handled, one drawing) and leaves the same locals. *)
Theorem frame_pacing (MAX PERIOD : Z) (f : Frame) (st st' : Locals)
    (tr : list Call) :
  0 <= PERIOD < 2 ^ 32 ->
  poll_loop MAX (pending f) st = (tr, Done st') ->
  frame MAX PERIOD f st =
    (SDL_GetTicks (start_ticks f) :: tr
       ++ [ViewportDrawImage; SDL_GetTicks (end_ticks f)]
       ++ (if Elapsed_Time f <? PERIOD
           then [SDL_Delay (PERIOD - Elapsed_Time f)] else []),
     Done st') /\
  (forall ms,
      In (SDL_Delay ms) (fst (frame MAX PERIOD f st)) <->
      Elapsed_Time f < PERIOD /\ ms = PERIOD - Elapsed_Time f) /\
  (forall t0 t1,
      snd (frame MAX PERIOD (mkFrame t0 (pending f) t1) st) = Done st' /\
      filter is_viewport_operation
        (fst (frame MAX PERIOD (mkFrame t0 (pending f) t1) st)) =
      filter is_viewport_operation tr ++ [ViewportDrawImage]).
Proof.
  intros HP Hpoll.
  assert (Hframe : frame MAX PERIOD f st =
    (SDL_GetTicks (start_ticks f) :: tr
       ++ [ViewportDrawImage; SDL_GetTicks (end_ticks f)]
       ++ (if Elapsed_Time f <? PERIOD
           then [SDL_Delay (PERIOD - Elapsed_Time f)] else []),
     Done st')).
  { rewrite (frame_Done MAX PERIOD f st st' tr Hpoll).
    now rewrite (pace_period PERIOD f HP). }
  assert (Htr : Forall (fun c => is_SDL_Delay c = false) tr).
  { apply polling_calls_not with (1 := polling_not_delay).
    pose proof (poll_loop_polling_calls MAX (pending f) st) as Hc.
    now rewrite Hpoll in Hc. }
  split; [exact Hframe|]. split.
  - intros ms. rewrite Hframe. cbn [fst]. split.
    + intros [H|H]; [discriminate H|].
      apply in_app_or in H. destruct H as [H|H].
      * apply (proj1 (Forall_forall _ _) Htr) in H. discriminate H.
      * destruct H as [H|[H|H]]; try discriminate H.
        destruct (Z.ltb_spec (Elapsed_Time f) PERIOD) as [Hlt|_];
          [|destruct H].
        destruct H as [H|[]]. injection H as <-. now split.
    + intros [Hlt ->]. right. apply in_or_app. right. right. right.
      rewrite (proj2 (Z.ltb_lt _ _) Hlt). now left.
  - intros t0 t1.
    rewrite (frame_Done MAX PERIOD (mkFrame t0 (pending f) t1) st st' tr Hpoll).
    split; [reflexivity|]. cbn [fst start_ticks end_ticks].
    cbn [filter is_viewport_operation].
    rewrite filter_app. cbn [app filter is_viewport_operation].
    rewrite (filter_none _ (fst (pace _ _ _))); [reflexivity|].
    eapply Forall_impl; [|apply pace_calls]. exact delay_not_viewport.
Qed.

Lemma frame_pacing_witness :
  let f := mkFrame 100 [at_mouse (SDL_MOUSEWHEEL 1)] 104 in
  let tr := [SDL_PollEvent (Some (SDL_MOUSEWHEEL 1));
             SDL_GetMouseState 30 40; ViewportSetZoomedArea 30 40 2;
             SDL_PollEvent None] in
  frame 8 16 f initial_locals =
    (SDL_GetTicks 100 :: tr ++ [ViewportDrawImage; SDL_GetTicks 104]
       ++ [SDL_Delay 12],
     Done (mkLocals 2 0)).
Proof.
  intros f tr.
  exact (proj1 (frame_pacing 8 16 f initial_locals (mkLocals 2 0) tr
                  ltac:(lia) eq_refl)).
Defined.

(** C7. Exit status.  [main] returns the failure status, after printing
    the usage text, when the argument count is not 2 (the program name and
    one argument); it returns the success status, after printing the usage
    text, when the one argument is [--help]; otherwise it returns the
    failure status when [SDL_Init] fails, when [IMG_Init] fails, when
    [IMG_Load] returns no image, or when [ViewportInitialize] fails, each
    tried after the ones before it succeeded; and once start-up succeeded,
    with a maximum zoom factor [2^k], [k <= 29], it returns the success
    status as soon as some event is a quit event or a 'q' key press.  The
    success status is 0 and the failure status is not. *)
Theorem exit_status (MAX PERIOD : Z) (argv : list string)
    (env : Environment) (frames : list Frame) :
  let run := main MAX PERIOD argv env frames in
  let usage := MainDisplayProgramUsage (nth_error argv 0) in
  let file := nth 1 argv EmptyString in
  (List.length argv <> 2%nat -> run = ([usage], Exit EXIT_FAILURE)) /\
  (List.length argv = 2%nat -> file = "--help"%string ->
   run = ([usage], Exit EXIT_SUCCESS)) /\
  (List.length argv = 2%nat -> file <> "--help"%string ->
   (SDL_Init_result env <> 0 -> snd run = Exit EXIT_FAILURE) /\
   (SDL_Init_result env = 0 -> IMG_Init_result env <> IMG_INIT_ALL ->
    snd run = Exit EXIT_FAILURE) /\
   (SDL_Init_result env = 0 -> IMG_Init_result env = IMG_INIT_ALL ->
    IMG_Load_result env = 0 -> snd run = Exit EXIT_FAILURE) /\
   (SDL_Init_result env = 0 -> IMG_Init_result env = IMG_INIT_ALL ->
    IMG_Load_result env <> 0 -> ViewportInitialize_result env <> 0 ->
    snd run = Exit EXIT_FAILURE) /\
   (startup_succeeds env ->
    forall k : nat, (k <= 29)%nat -> MAX = two_power_nat k ->
    has_quit_signal frames = true -> snd run = Exit EXIT_SUCCESS)) /\
  EXIT_SUCCESS = 0 /\ EXIT_FAILURE <> 0.
Proof.
  intros run usage file. subst run. unfold main. fold file. fold usage.
  split; [|split; [|split; [|split; [reflexivity|discriminate]]]].
  - intros Hargc.
    replace (Z.of_nat (List.length argv) =? 2) with false
      by (symmetry; apply Z.eqb_neq; lia).
    reflexivity.
  - intros Hargc Hhelp. rewrite Hargc, Hhelp. reflexivity.
  - intros Hargc Hfile. rewrite Hargc.
    rewrite (proj2 (String.eqb_neq _ _) Hfile). cbn [Z.of_nat negb].
    change (Z.pos (Pos.of_succ_nat 1) =? 2) with true. cbv iota.
    rewrite bind_call. cbn [snd].
    split; [|split; [|split; [|split]]].
    + intros H. rewrite (proj2 (Z.eqb_neq _ _) H). reflexivity.
    + intros -> H. rewrite (proj2 (Z.eqb_neq _ _) H). reflexivity.
    + intros -> -> ->. reflexivity.
    + intros -> -> Hload H.
      rewrite (proj2 (Z.eqb_neq _ _) Hload), (proj2 (Z.eqb_neq _ _) H).
      reflexivity.
    + intros (-> & -> & Hload & ->) k Hk HMAX Hquit.
      rewrite (proj2 (Z.eqb_neq _ _) Hload). cbn [Z.eqb negb].
      change (IMG_INIT_ALL =? IMG_INIT_ALL) with true. cbn [negb].
      rewrite !bind_call. cbn [snd].
      pose proof (main_loop_ending MAX PERIOD k Hk HMAX frames initial_locals
                    (initial_locals_in_range MAX k Hk HMAX)) as Hend.
      now rewrite Hquit in Hend.
Qed.

Lemma exit_status_witness :
  let env := mkEnvironment 0 7 1 0 in
  let frames :=
    [mkFrame 100 [at_mouse (SDL_MOUSEWHEEL 1)] 104;
     mkFrame 116 [at_mouse (SDL_MOUSEMOTION 5 6); at_mouse SDL_QUIT] 117] in
  main 8 16 ["viewer"]%string env frames =
    ([MainDisplayProgramUsage (Some "viewer"%string)], Exit EXIT_FAILURE) /\
  main 8 16 ["viewer"; "--help"]%string env frames =
    ([MainDisplayProgramUsage (Some "viewer"%string)], Exit EXIT_SUCCESS) /\
  snd (main 8 16 ["viewer"; "image.png"]%string (mkEnvironment 0 7 0 0) frames)
    = Exit EXIT_FAILURE /\
  snd (main 8 16 ["viewer"; "image.png"]%string env frames)
    = Exit EXIT_SUCCESS.
Proof.
  intros env frames. split; [|split; [|split]].
  - apply (proj1 (exit_status 8 16 ["viewer"]%string env frames)).
    discriminate.
  - apply (proj1 (proj2
      (exit_status 8 16 ["viewer"; "--help"]%string env frames)));
      reflexivity.
  - destruct (proj1 (proj2 (proj2
      (exit_status 8 16 ["viewer"; "image.png"]%string
         (mkEnvironment 0 7 0 0) frames))) eq_refl ltac:(discriminate))
      as (_ & _ & H & _).
    apply H; reflexivity.
  - destruct (proj1 (proj2 (proj2
      (exit_status 8 16 ["viewer"; "image.png"]%string env frames)))
      eq_refl ltac:(discriminate))
      as (_ & _ & _ & _ & H).
    apply (H ltac:(repeat split; discriminate) 3%nat);
      [lia|reflexivity|reflexivity].
Defined.

(** ** Further properties: start-up and exit *)

Lemma length_append (s1 s2 : string) :
  String.length (s1 ++ s2) = (String.length s1 + String.length s2)%nat.
Proof. induction s1 as [|c s1 IH]; cbn; [reflexivity|now rewrite IH]. Qed.

Lemma length_substring_0 (m : nat) :
  forall s, String.length (substring 0 m s) = Nat.min m (String.length s).
Proof.
  induction m as [|m IH]; intros [|c s]; cbn; try reflexivity.
  now rewrite IH.
Qed.

Lemma substring_0_all (m : nat) :
  forall s, (String.length s <= m)%nat -> substring 0 m s = s.
Proof.
  induction m as [|m IH]; intros [|c s]; cbn; intros H; try reflexivity.
  - lia.
  - rewrite IH by lia. reflexivity.
Qed.

(** X2. The window title.  The title that [main] builds in its buffer of
    256 characters is ["Image Viewer - "] followed by the first 240
    characters of the file name: its length is 15 plus the smaller of 240
    and the length of the name, so at most 255, and a name of at most 240
    characters is not cut. *)
Theorem title_fits_buffer (file : string) :
  String.length (String_Program_Title file) =
    (15 + Nat.min 240 (String.length file))%nat /\
  (String.length (String_Program_Title file) <= 255)%nat /\
  ((String.length file <= 240)%nat ->
   String_Program_Title file = ("Image Viewer - " ++ file)%string).
Proof.
  unfold String_Program_Title.
  change (256 - 16)%nat with 240%nat.
  rewrite length_append, length_substring_0.
  change (String.length "Image Viewer - ") with 15%nat.
  repeat split; [lia|].
  intros H. now rewrite substring_0_all.
Qed.

Lemma title_fits_buffer_witness :
  String_Program_Title "image.png" = "Image Viewer - image.png"%string.
Proof.
  apply (proj2 (proj2 (title_fits_buffer "image.png"))). cbn. lia.
Defined.

(** [main], one start-up step after the other. *)
Lemma main_unfold (MAX PERIOD : Z) (argv : list string) (env : Environment)
    (frames : list Frame) :
  let usage := MainDisplayProgramUsage (nth_error argv 0) in
  let file := nth 1 argv EmptyString in
  let title := String_Program_Title file in
  main MAX PERIOD argv env frames =
  if negb (Z.of_nat (List.length argv) =? 2) then
    ([usage], Exit EXIT_FAILURE)
  else if String.eqb file "--help" then
    ([usage], Exit EXIT_SUCCESS)
  else if negb (SDL_Init_result env =? 0) then
    ([SDL_Init (SDL_Init_result env); printf Error_SDL_Init],
     Exit EXIT_FAILURE)
  else if negb (IMG_Init_result env =? IMG_INIT_ALL) then
    ([SDL_Init (SDL_Init_result env); atexit_MainExit;
      IMG_Init (IMG_Init_result env); printf Error_IMG_Init],
     Exit EXIT_FAILURE)
  else if IMG_Load_result env =? 0 then
    ([SDL_Init (SDL_Init_result env); atexit_MainExit;
      IMG_Init (IMG_Init_result env); IMG_Load file (IMG_Load_result env);
      printf (Error_IMG_Load file)],
     Exit EXIT_FAILURE)
  else if negb (ViewportInitialize_result env =? 0) then
    ([SDL_Init (SDL_Init_result env); atexit_MainExit;
      IMG_Init (IMG_Init_result env); IMG_Load file (IMG_Load_result env);
      ViewportInitialize title (ViewportInitialize_result env)],
     Exit EXIT_FAILURE)
  else
    ([SDL_Init (SDL_Init_result env); atexit_MainExit;
      IMG_Init (IMG_Init_result env); IMG_Load file (IMG_Load_result env);
      ViewportInitialize title (ViewportInitialize_result env);
      SDL_FreeSurface]
       ++ fst (main_loop MAX PERIOD frames initial_locals),
     snd (main_loop MAX PERIOD frames initial_locals)).
Proof.
  intros usage file title. unfold main. fold file. fold usage. fold title.
  destruct (negb (Z.of_nat (List.length argv) =? 2)); [reflexivity|].
  destruct (String.eqb file "--help"); [reflexivity|].
  destruct (negb (SDL_Init_result env =? 0)); [reflexivity|].
  destruct (negb (IMG_Init_result env =? IMG_INIT_ALL)); [reflexivity|].
  destruct (IMG_Load_result env =? 0); [reflexivity|].
  destruct (negb (ViewportInitialize_result env =? 0)); reflexivity.
Qed.

(** Turns the tests of the start-up sequence into facts. *)
Ltac startup_facts :=
  repeat match goal with
    | H : negb _ = true |- _ => apply negb_true_iff in H
    | H : negb _ = false |- _ => apply negb_false_iff in H
    | H : (_ =? _) = true |- _ => apply Z.eqb_eq in H
    | H : (_ =? _) = false |- _ => apply Z.eqb_neq in H
    | H : String.eqb _ _ = true |- _ => apply String.eqb_eq in H
    | H : String.eqb _ _ = false |- _ => apply String.eqb_neq in H
    end.

(** X1. The exit handler.  When [main] returns, [MainExit] runs, calling
    [IMG_Quit] and then [SDL_Quit], exactly when the argument count was 2,
    the argument was not [--help] and [SDL_Init] succeeded: so also after
    a failure of [IMG_Init], [IMG_Load] or [ViewportInitialize] and after a
    quit signal, and never after an argument error, a help request or a
    failure of [SDL_Init]. *)
Theorem exit_handler_runs_iff_registered (MAX PERIOD : Z)
    (argv : list string) (env : Environment) (frames : list Frame)
    (status : Z) :
  snd (main MAX PERIOD argv env frames) = Exit status ->
  snd (fst (process MAX PERIOD argv env frames)) =
    if reaches_atexit argv env then [IMG_Quit; SDL_Quit] else [].
Proof.
  intros H. unfold process. cbn [fst snd]. rewrite H.
  replace (existsb is_atexit_MainExit (fst (main MAX PERIOD argv env frames)))
    with (reaches_atexit argv env); [reflexivity|].
  pose proof (main_unfold MAX PERIOD argv env frames) as Hm.
  cbv zeta in Hm. rewrite Hm. unfold reaches_atexit.
  destruct (Z.of_nat (List.length argv) =? 2); [|reflexivity].
  destruct (String.eqb (nth 1 argv EmptyString) "--help"); [reflexivity|].
  destruct (SDL_Init_result env =? 0); [|reflexivity].
  cbn [negb andb].
  destruct (negb (IMG_Init_result env =? IMG_INIT_ALL)); [reflexivity|].
  destruct (IMG_Load_result env =? 0); [reflexivity|].
  destruct (negb (ViewportInitialize_result env =? 0)); reflexivity.
Qed.

Lemma exit_handler_runs_iff_registered_witness :
  snd (fst (process 8 16 ["viewer"; "image.png"]%string
              (mkEnvironment 0 7 0 0) [])) = [IMG_Quit; SDL_Quit] /\
  snd (fst (process 8 16 ["viewer"; "image.png"]%string
              (mkEnvironment 1 7 1 0) [])) = [].
Proof.
  split.
  - exact (exit_handler_runs_iff_registered 8 16 ["viewer"; "image.png"]%string
             (mkEnvironment 0 7 0 0) [] EXIT_FAILURE eq_refl).
  - exact (exit_handler_runs_iff_registered 8 16 ["viewer"; "image.png"]%string
             (mkEnvironment 1 7 1 0) [] EXIT_FAILURE eq_refl).
Defined.

(** X3. No viewport operation before initialization.  Whenever a run of
    [main] makes a viewport operation (set dimensions, set zoomed area,
    set flipping mode, scale, draw), every start-up call has succeeded and
    the operation comes after the whole start-up sequence, in particular
    after an [IMG_Load] that returned an image and a [ViewportInitialize]
    that returned 0. *)
Theorem viewport_only_after_initialize (MAX PERIOD : Z)
    (argv : list string) (env : Environment) (frames : list Frame)
    (c : Call) :
  In c (fst (main MAX PERIOD argv env frames)) ->
  is_viewport_operation c = true ->
  startup_succeeds env /\
  exists tr1 tr2,
    fst (main MAX PERIOD argv env frames) =
    startup_calls (nth 1 argv EmptyString) env ++ tr1 ++ c :: tr2.
Proof.
  pose proof (main_unfold MAX PERIOD argv env frames) as Hm.
  cbv zeta in Hm. rewrite Hm. clear Hm.
  destruct (negb (Z.of_nat (List.length argv) =? 2)) eqn:E1;
    [cbn; intros [<-|[]]; discriminate|].
  destruct (String.eqb (nth 1 argv EmptyString) "--help") eqn:E2;
    [cbn; intros [<-|[]]; discriminate|].
  destruct (negb (SDL_Init_result env =? 0)) eqn:E3;
    [cbn; intros [<-|[<-|[]]]; discriminate|].
  destruct (negb (IMG_Init_result env =? IMG_INIT_ALL)) eqn:E4;
    [cbn; intros [<-|[<-|[<-|[<-|[]]]]]; discriminate|].
  destruct (IMG_Load_result env =? 0) eqn:E5;
    [cbn; intros [<-|[<-|[<-|[<-|[<-|[]]]]]]; discriminate|].
  destruct (negb (ViewportInitialize_result env =? 0)) eqn:E6;
    [cbn; intros [<-|[<-|[<-|[<-|[<-|[]]]]]]; discriminate|].
  startup_facts. cbn [fst]. intros Hin Hc.
  split; [now repeat split|].
  apply in_app_or in Hin. destruct Hin as [Hin|Hin].
  - cbn in Hin.
    destruct Hin as [<-|[<-|[<-|[<-|[<-|[<-|[]]]]]]]; discriminate Hc.
  - apply in_split in Hin. destruct Hin as (tr1 & tr2 & ->).
    exists tr1, tr2. unfold startup_calls. now rewrite E3, E4, E6.
Qed.

Lemma viewport_only_after_initialize_witness :
  let argv := ["viewer"; "image.png"]%string in
  let env := mkEnvironment 0 7 1 0 in
  let frames := [mkFrame 100 [] 104] in
  startup_succeeds env /\
  exists tr1 tr2,
    fst (main 8 16 argv env frames) =
    startup_calls "image.png" env ++ tr1 ++ ViewportDrawImage :: tr2.
Proof.
  intros argv env frames.
  apply (viewport_only_after_initialize 8 16 argv env frames
           ViewportDrawImage).
  - cbn. do 8 right. now left.
  - reflexivity.
Defined.

(** X4. What an exit status tells.  [main] returns no status other than
    success and failure.  The failure status is returned only with a wrong
    argument count or a failed start-up call, before any viewport operation
    and before any event is polled; the success status is returned only
    for [--help], or after a start-up that succeeded and a quit signal
    among the events. *)
Theorem returned_status_origin (MAX PERIOD : Z) (argv : list string)
    (env : Environment) (frames : list Frame) (status : Z) :
  snd (main MAX PERIOD argv env frames) = Exit status ->
  (status = EXIT_FAILURE /\
   ~ (List.length argv = 2%nat /\ startup_succeeds env) /\
   count_calls is_polling_call (fst (main MAX PERIOD argv env frames)) = 0%nat /\
   count_calls is_viewport_operation (fst (main MAX PERIOD argv env frames))
     = 0%nat) \/
  (status = EXIT_SUCCESS /\
   List.length argv = 2%nat /\
   (nth 1 argv EmptyString = "--help"%string \/
    startup_succeeds env /\ has_quit_signal frames = true)).
Proof.
  pose proof (main_unfold MAX PERIOD argv env frames) as Hm.
  cbv zeta in Hm. rewrite Hm. clear Hm.
  destruct (negb (Z.of_nat (List.length argv) =? 2)) eqn:E1.
  { startup_facts. intros [= <-]. left.
    repeat split; try reflexivity. intros [H _]. lia. }
  destruct (String.eqb (nth 1 argv EmptyString) "--help") eqn:E2.
  { startup_facts. intros [= <-]. right.
    repeat split; [lia|now left]. }
  destruct (negb (SDL_Init_result env =? 0)) eqn:E3.
  { startup_facts. intros [= <-]. left.
    repeat split; try reflexivity. intros [_ (H & _)]. contradiction. }
  destruct (negb (IMG_Init_result env =? IMG_INIT_ALL)) eqn:E4.
  { startup_facts. intros [= <-]. left.
    repeat split; try reflexivity. intros [_ (_ & H & _)]. contradiction. }
  destruct (IMG_Load_result env =? 0) eqn:E5.
  { startup_facts. intros [= <-]. left.
    repeat split; try reflexivity. intros [_ (_ & _ & H & _)].
    contradiction. }
  destruct (negb (ViewportInitialize_result env =? 0)) eqn:E6.
  { startup_facts. intros [= <-]. left.
    repeat split; try reflexivity. intros [_ (_ & _ & _ & H)].
    contradiction. }
  startup_facts. cbn [snd]. intros H.
  destruct (main_loop_Exit MAX PERIOD frames _ _ H) as [Hq ->].
  right. repeat split; try assumption; [lia|].
  right. now repeat split.
Qed.

Lemma returned_status_origin_witness :
  let argv := ["viewer"; "image.png"]%string in
  let env := mkEnvironment 0 7 1 0 in
  let frames := [mkFrame 100 [at_mouse SDL_QUIT] 104] in
  (EXIT_SUCCESS = EXIT_FAILURE /\
   ~ (List.length argv = 2%nat /\ startup_succeeds env) /\
   count_calls is_polling_call (fst (main 8 16 argv env frames)) = 0%nat /\
   count_calls is_viewport_operation (fst (main 8 16 argv env frames))
     = 0%nat) \/
  (EXIT_SUCCESS = EXIT_SUCCESS /\
   List.length argv = 2%nat /\
   (nth 1 argv EmptyString = "--help"%string \/
    startup_succeeds env /\ has_quit_signal frames = true)).
Proof.
  intros argv env frames.
  exact (returned_status_origin 8 16 argv env frames EXIT_SUCCESS eq_refl).
Defined.

(** ** Further properties: events *)

Lemma for_loop_S (fuel : nat) (x y i Zoom : Z) :
  for_loop (S fuel) x y i Zoom =
  if i <=? Zoom then
    bind (call (ViewportSetZoomedArea x y i))
         (fun _ => for_loop fuel x y (int32 (Z.shiftl i 1)) Zoom)
  else ret tt.
Proof. reflexivity. Qed.

Lemma bind_fst_nil {A B} (m : Prog A) (k : A -> Prog B) :
  fst (bind m k) = [] -> fst m = [].
Proof.
  unfold bind. destruct (snd m); cbn; try easy.
  intros H. now apply app_eq_nil in H.
Qed.

Lemma set_Zoom_Factor_same (st : Locals) :
  set_Zoom_Factor (Zoom_Factor st) st = st.
Proof. now destruct st. Qed.

(** X5. Silent events.  An event whose handling calls nothing (a window
    event other than a size change, a key other than 'f', 'q' and 's', a
    mouse motion at a zoom factor of at most 1, an event of another type)
    leaves the zoom factor and the flipping mode of the shell as they
    were: the shell never changes them without telling the viewport. *)
Theorem silent_event_keeps_locals (MAX : Z) (e : Polled) (st st' : Locals) :
  fst (handle_event MAX e st) = [] ->
  snd (handle_event MAX e st) = Done st' ->
  st' = st.
Proof.
  destruct e as [ev [mx my]]. destruct ev as [|wev d1 d2|wy|sym|x y|ty].
  - discriminate.
  - unfold handle_event. cbn [event].
    destruct (wev =? SDL_WINDOWEVENT_SIZE_CHANGED); cbn;
      [discriminate|now intros _ [= <-]].
  - rewrite handle_wheel. discriminate.
  - unfold handle_event. cbn [event].
    destruct (sym =? SDLK_f); [discriminate|].
    destruct (sym =? SDLK_q); [discriminate|].
    destruct (sym =? SDLK_s); cbn; [discriminate|now intros _ [= <-]].
  - unfold handle_event. cbn [event].
    destruct (Zoom_Factor st >? 1) eqn:E; [|cbn; now intros _ [= <-]].
    intros H. apply bind_fst_nil in H. exfalso. revert H.
    unfold for_fuel. rewrite for_loop_S.
    rewrite Z.gtb_ltb in E. apply Z.ltb_lt in E.
    rewrite (proj2 (Z.leb_le _ _)) by lia.
    rewrite bind_call. discriminate.
  - cbn. now intros _ [= <-].
Qed.

Lemma silent_event_keeps_locals_witness :
  handle_event 8 (at_mouse (SDL_KEYDOWN 97)) (mkLocals 4 2) =
    ([], Done (mkLocals 4 2)) /\
  mkLocals 4 2 = mkLocals 4 2.
Proof.
  split; [reflexivity|].
  exact (silent_event_keeps_locals 8 (at_mouse (SDL_KEYDOWN 97))
           (mkLocals 4 2) (mkLocals 4 2) eq_refl eq_refl).
Defined.

(** X6. The flipping mode changes on 'f' only.  Handling any event other
    than a press of the 'f' key leaves the flipping mode of the shell
    unchanged, whatever it does to the zoom factor. *)
Theorem flipping_mode_changes_on_f_only (MAX : Z) (e : Polled)
    (st st' : Locals) :
  event e <> SDL_KEYDOWN SDLK_f ->
  snd (handle_event MAX e st) = Done st' ->
  Flipping_Mode st' = Flipping_Mode st.
Proof.
  destruct e as [ev [mx my]]. cbn [event]. intros Hf.
  destruct ev as [|wev d1 d2|wy|sym|x y|ty].
  - discriminate.
  - unfold handle_event. cbn [event].
    destruct (wev =? SDL_WINDOWEVENT_SIZE_CHANGED); cbn; now intros [= <-].
  - rewrite handle_wheel. cbn. now intros [= <-].
  - unfold handle_event. cbn [event].
    destruct (Z.eqb_spec sym SDLK_f) as [->|_]; [contradiction|].
    destruct (sym =? SDLK_q); [discriminate|].
    destruct (sym =? SDLK_s); cbn; now intros [= <-].
  - unfold handle_event. cbn [event].
    destruct (Zoom_Factor st >? 1); [|cbn; now intros [= <-]].
    intros H. apply bind_snd_Done in H.
    destruct H as (_ & _ & H & _). now injection H as <-.
  - cbn. now intros [= <-].
Qed.

Lemma flipping_mode_changes_on_f_only_witness :
  Flipping_Mode (mkLocals 1 2) = Flipping_Mode (mkLocals 4 2).
Proof.
  apply (flipping_mode_changes_on_f_only 8 (at_mouse (SDL_KEYDOWN SDLK_s))
           (mkLocals 4 2) (mkLocals 1 2)).
  - discriminate.
  - reflexivity.
Defined.

Lemma dispatch_cons_snd (MAX : Z) (e : Polled) (events : list Polled)
    (st st1 : Locals) :
  snd (handle_event MAX e st) = Done st1 ->
  snd (dispatch MAX (e :: events) st) = snd (dispatch MAX events st1).
Proof.
  intros H. cbn [dispatch]. rewrite bind_call. cbn [snd].
  unfold bind. now rewrite H.
Qed.

Lemma wheel_down_power (MAX : Z) (down : Z) (ms : Z * Z) (st : Locals) (j : nat) :
  down <= 0 -> Zoom_Factor st = two_power_nat j ->
  snd (handle_event MAX (mkPolled (SDL_MOUSEWHEEL down) ms) st) =
  Done (set_Zoom_Factor (two_power_nat (j - 1)) st).
Proof.
  intros Hdown HZ. destruct ms as [mx my]. rewrite handle_wheel.
  cbn [snd]. rewrite HZ.
  replace (down >? 0) with false
    by (symmetry; rewrite Z.gtb_ltb; apply Z.ltb_ge; lia).
  destruct j as [|j]; [reflexivity|].
  pose proof (two_power_nat_pos j) as Hpos.
  rewrite two_power_nat_S.
  replace (2 * two_power_nat j >? 1) with true
    by (symmetry; rewrite Z.gtb_ltb; apply Z.ltb_lt; lia).
  rewrite Z.quot_div_nonneg by lia.
  replace (2 * two_power_nat j) with (two_power_nat j * 2) by lia.
  rewrite Z.div_mul by lia.
  now replace (S j - 1)%nat with j by lia.
Qed.

Lemma wheel_downs (MAX : Z) (down : Z) (ms : Z * Z) (n : nat) :
  down <= 0 ->
  forall (j : nat) (st : Locals),
    Zoom_Factor st = two_power_nat j ->
    snd (dispatch MAX (repeat (mkPolled (SDL_MOUSEWHEEL down) ms) n) st) =
    Done (set_Zoom_Factor (two_power_nat (j - n)) st).
Proof.
  intros Hdown. induction n as [|n IH]; intros j st HZ.
  - cbn. replace (j - 0)%nat with j by lia.
    now rewrite <- HZ, set_Zoom_Factor_same.
  - cbn [repeat].
    rewrite (dispatch_cons_snd MAX _ _ _ _
               (wheel_down_power MAX down ms st j Hdown HZ)).
    rewrite (IH (j - 1)%nat) by reflexivity.
    unfold set_Zoom_Factor. cbn [Flipping_Mode]. do 3 f_equal. lia.
Qed.

Section Wheel.

Variable MAX : Z.
Variable k : nat.
Hypothesis k_small : (k <= 29)%nat.
Hypothesis MAX_power : MAX = two_power_nat k.

Lemma wheel_up_power (up : Z) (ms : Z * Z) (st : Locals) (j : nat) :
  0 < up -> (j <= k)%nat -> Zoom_Factor st = two_power_nat j ->
  snd (handle_event MAX (mkPolled (SDL_MOUSEWHEEL up) ms) st) =
  Done (set_Zoom_Factor (two_power_nat (Nat.min (S j) k)) st).
Proof.
  intros Hup Hj HZ. destruct ms as [mx my]. rewrite handle_wheel.
  cbn [snd]. rewrite HZ, MAX_power.
  replace (up >? 0) with true
    by (symmetry; rewrite Z.gtb_ltb; now apply Z.ltb_lt).
  destruct (Nat.eq_dec j k) as [->|Hne].
  - rewrite Z.ltb_irrefl. now replace (Nat.min (S k) k) with k by lia.
  - rewrite (proj2 (Z.ltb_lt _ _)) by (apply two_power_nat_lt; lia).
    rewrite int32_double by lia.
    now replace (Nat.min (S j) k) with (S j) by lia.
Qed.

Lemma wheel_ups (up : Z) (ms : Z * Z) (n : nat) :
  0 < up ->
  forall (j : nat) (st : Locals),
    (j <= k)%nat -> Zoom_Factor st = two_power_nat j ->
    snd (dispatch MAX (repeat (mkPolled (SDL_MOUSEWHEEL up) ms) n) st) =
    Done (set_Zoom_Factor (two_power_nat (Nat.min (j + n) k)) st).
Proof.
  intros Hup. induction n as [|n IH]; intros j st Hj HZ.
  - cbn. replace (Nat.min (j + 0) k) with j by lia.
    now rewrite <- HZ, set_Zoom_Factor_same.
  - cbn [repeat].
    rewrite (dispatch_cons_snd MAX _ _ _ _
               (wheel_up_power up ms st j Hup Hj HZ)).
    rewrite (IH (Nat.min (S j) k)) by (try reflexivity; lia).
    unfold set_Zoom_Factor. cbn [Flipping_Mode]. do 3 f_equal. lia.
Qed.

End Wheel.

(** X7. Wheel round trips.  With a maximum zoom factor [2^k], [k <= 29],
    and a zoom factor [2^j], [j <= k]: a wheel-up event followed by a
    wheel-down event restores the locals when the zoom factor was below
    the maximum, and a wheel-down event followed by a wheel-up event
    restores them when the zoom factor was above 1. *)
Theorem wheel_round_trip (MAX : Z) (k j : nat) (st : Locals)
    (up down : Z) (ms : Z * Z) :
  (k <= 29)%nat -> MAX = two_power_nat k ->
  (j <= k)%nat -> Zoom_Factor st = two_power_nat j ->
  0 < up -> down <= 0 ->
  let wheel y := mkPolled (SDL_MOUSEWHEEL y) ms in
  ((j < k)%nat -> snd (dispatch MAX [wheel up; wheel down] st) = Done st) /\
  ((0 < j)%nat -> snd (dispatch MAX [wheel down; wheel up] st) = Done st).
Proof.
  intros Hk HMAX Hj HZ Hup Hdown wheel. unfold wheel. split; intros Hlt.
  - rewrite (dispatch_cons_snd MAX _ _ _ _
               (wheel_up_power MAX k Hk HMAX up ms st j Hup Hj HZ)).
    rewrite (dispatch_cons_snd MAX _ _ _ _
               (wheel_down_power MAX down ms
                  (set_Zoom_Factor (two_power_nat (Nat.min (S j) k)) st)
                  (Nat.min (S j) k) Hdown eq_refl)).
    unfold set_Zoom_Factor. cbn [dispatch ret snd Flipping_Mode].
    replace (Nat.min (S j) k - 1)%nat with j by lia.
    rewrite <- HZ. now destruct st.
  - rewrite (dispatch_cons_snd MAX _ _ _ _
               (wheel_down_power MAX down ms st j Hdown HZ)).
    rewrite (dispatch_cons_snd MAX _ _ _ _
               (wheel_up_power MAX k Hk HMAX up ms
                  (set_Zoom_Factor (two_power_nat (j - 1)) st) (j - 1)
                  Hup ltac:(lia) eq_refl)).
    unfold set_Zoom_Factor. cbn [dispatch ret snd Flipping_Mode].
    replace (Nat.min (S (j - 1)) k) with j by lia.
    rewrite <- HZ. now destruct st.
Qed.

Lemma wheel_round_trip_witness :
  snd (dispatch 8 [mkPolled (SDL_MOUSEWHEEL 1) (30, 40);
                   mkPolled (SDL_MOUSEWHEEL (-1)) (30, 40)] (mkLocals 4 2))
    = Done (mkLocals 4 2) /\
  snd (dispatch 8 [mkPolled (SDL_MOUSEWHEEL (-1)) (30, 40);
                   mkPolled (SDL_MOUSEWHEEL 1) (30, 40)] (mkLocals 4 2))
    = Done (mkLocals 4 2).
Proof.
  destruct (wheel_round_trip 8 3 2 (mkLocals 4 2) 1 (-1) (30, 40)
              ltac:(lia) eq_refl ltac:(lia) eq_refl ltac:(lia) ltac:(lia))
    as [H1 H2].
  split; [apply H1; lia|apply H2; lia].
Defined.

(** X8. Repeated wheel events.  With a maximum zoom factor [2^k],
    [k <= 29], from a zoom factor [2^j], [j <= k]: [n] wheel-up events in
    a row leave the zoom factor at [2^(min (j+n) k)], so it stops at the
    maximum; [n] wheel-down events in a row leave it at [2^(j-n)], or at 1
    when [n >= j]; the flipping mode is untouched. *)
Theorem wheel_repeated (MAX : Z) (k j n : nat) (st : Locals)
    (up down : Z) (ms : Z * Z) :
  (k <= 29)%nat -> MAX = two_power_nat k ->
  (j <= k)%nat -> Zoom_Factor st = two_power_nat j ->
  0 < up -> down <= 0 ->
  snd (dispatch MAX (repeat (mkPolled (SDL_MOUSEWHEEL up) ms) n) st) =
    Done (mkLocals (two_power_nat (Nat.min (j + n) k)) (Flipping_Mode st)) /\
  snd (dispatch MAX (repeat (mkPolled (SDL_MOUSEWHEEL down) ms) n) st) =
    Done (mkLocals (two_power_nat (j - n)) (Flipping_Mode st)).
Proof.
  intros Hk HMAX Hj HZ Hup Hdown. split.
  - exact (wheel_ups MAX k Hk HMAX up ms n Hup j st Hj HZ).
  - exact (wheel_downs MAX down ms n Hdown j st HZ).
Qed.

Lemma wheel_repeated_witness :
  snd (dispatch 8 (repeat (mkPolled (SDL_MOUSEWHEEL 1) (30, 40)) 5)
         (mkLocals 2 3)) = Done (mkLocals 8 3) /\
  snd (dispatch 8 (repeat (mkPolled (SDL_MOUSEWHEEL (-1)) (30, 40)) 5)
         (mkLocals 2 3)) = Done (mkLocals 1 3).
Proof.
  exact (wheel_repeated 8 3 1 5 (mkLocals 2 3) 1 (-1) (30, 40)
           ltac:(lia) eq_refl ltac:(lia) eq_refl ltac:(lia) ltac:(lia)).
Defined.

(** ** Further properties: whole runs *)

Lemma until_quit_no_quit (l l' : list SDL_Event) :
  existsb is_quit_signal l = false ->
  until_quit (l ++ l') = l ++ until_quit l'.
Proof.
  induction l as [|e l IH]; [reflexivity|]. cbn.
  destruct (is_quit_signal e); [discriminate|].
  cbn. intros H. now rewrite IH.
Qed.

Lemma until_quit_quit (l l' : list SDL_Event) :
  existsb is_quit_signal l = true ->
  until_quit (l ++ l') = until_quit l.
Proof.
  induction l as [|e l IH]; [discriminate|]. cbn.
  destruct (is_quit_signal e); [reflexivity|].
  cbn. intros H. now rewrite IH.
Qed.

Lemma existsb_quits (events : list Polled) :
  existsb is_quit_signal (map event events) = existsb quits events.
Proof.
  induction events as [|e events IH]; [reflexivity|].
  cbn. now rewrite IH.
Qed.

Lemma pace_delivered PERIOD t0 t1 : delivered (fst (pace PERIOD t0 t1)) = [].
Proof. unfold pace. now destruct (_ <? _). Qed.

Lemma pace_draws PERIOD t0 t1 :
  count_calls is_ViewportDrawImage (fst (pace PERIOD t0 t1)) = 0%nat.
Proof. unfold pace. now destruct (_ <? _). Qed.

Section Runs.

Variables MAX PERIOD : Z.
Variable k : nat.
Hypothesis k_small : (k <= 29)%nat.
Hypothesis MAX_power : MAX = two_power_nat k.

(** In range, the handling of an event that is no quit signal falls
    through. *)
Lemma handle_event_falls_through (e : Polled) (st : Locals) :
  locals_in_range MAX st -> quits e = false ->
  exists st', snd (handle_event MAX e st) = Done st' /\
              locals_in_range MAX st'.
Proof.
  intros Hst Hq.
  destruct (handle_event_in_range MAX k k_small MAX_power e st Hst)
    as (_ & Hang & Hdone).
  destruct (snd (handle_event MAX e st)) as [st'|status|] eqn:E.
  - exists st'. split; [reflexivity|now apply Hdone].
  - apply handle_event_exit in E. unfold quits in Hq.
    destruct E as [E _]. congruence.
  - congruence.
Qed.

Lemma poll_loop_delivered (events : list Polled) :
  forall st,
    locals_in_range MAX st ->
    delivered (fst (poll_loop MAX events st)) = until_quit (map event events).
Proof.
  induction events as [|e events IH]; intros st Hst; [reflexivity|].
  cbn [poll_loop map until_quit]. rewrite bind_call. cbn [fst delivered].
  destruct (is_quit_signal (event e)) eqn:Hq.
  - rewrite (handle_event_quit MAX e st Hq). reflexivity.
  - destruct (handle_event_falls_through e st Hst Hq) as (st1 & H1 & Hst1).
    rewrite (bind_Done _ _ _ _
               (eq_trans (surjective_pairing _) (f_equal (pair _) H1))).
    cbn [fst]. rewrite delivered_app, (IH st1 Hst1).
    now rewrite delivered_none by apply handle_event_handler_calls.
Qed.

(** An iteration in range: what it delivers, how often it draws, how it
    ends. *)
Lemma frame_summary (f : Frame) (st : Locals) :
  locals_in_range MAX st ->
  delivered (fst (frame MAX PERIOD f st)) =
    until_quit (map event (pending f)) /\
  if existsb quits (pending f)
  then snd (frame MAX PERIOD f st) = Exit EXIT_SUCCESS /\
       count_calls is_ViewportDrawImage (fst (frame MAX PERIOD f st)) = 0%nat
  else (exists st', snd (frame MAX PERIOD f st) = Done st' /\
                    locals_in_range MAX st') /\
       count_calls is_ViewportDrawImage (fst (frame MAX PERIOD f st)) = 1%nat.
Proof.
  intros Hst.
  pose proof (poll_loop_delivered (pending f) st Hst) as Hdel.
  pose proof (poll_loop_polling_calls MAX (pending f) st) as Hcalls.
  destruct (poll_loop_in_range MAX k k_small MAX_power (pending f) st Hst)
    as (_ & Hang & Hdone).
  destruct (poll_loop MAX (pending f) st) as [tr [st'|status|]] eqn:E;
    cbn [fst snd] in *; [| |congruence].
  - rewrite (frame_Done MAX PERIOD f st st' tr E). cbn [fst snd].
    assert (Hq : existsb quits (pending f) = false).
    { apply (poll_loop_Done MAX (pending f) st st'). now rewrite E. }
    rewrite Hq. split; [|split].
    + cbn [delivered]. rewrite delivered_app. cbn [app delivered].
      now rewrite pace_delivered, app_nil_r.
    + exists st'. split; [reflexivity|now apply Hdone].
    + change (SDL_GetTicks (start_ticks f) :: ?l)
        with ([SDL_GetTicks (start_ticks f)] ++ l).
      rewrite !count_calls_app, pace_draws.
      rewrite (count_calls_none is_ViewportDrawImage tr); [reflexivity|].
      now apply polling_calls_not with (1 := polling_not_draw).
  - rewrite (frame_Exit MAX PERIOD f st tr status E). cbn [fst snd].
    destruct (poll_loop_Exit MAX (pending f) st status) as [Hq ->];
      [now rewrite E|].
    rewrite Hq. split; [exact Hdel|]. split; [reflexivity|].
    change (SDL_GetTicks (start_ticks f) :: tr)
      with ([SDL_GetTicks (start_ticks f)] ++ tr).
    rewrite count_calls_app.
    rewrite (count_calls_none is_ViewportDrawImage tr); [reflexivity|].
    now apply polling_calls_not with (1 := polling_not_draw).
Qed.

Lemma main_loop_summary (frames : list Frame) :
  forall st,
    locals_in_range MAX st ->
    delivered (fst (main_loop MAX PERIOD frames st)) =
      until_quit (supplied_events frames) /\
    count_calls is_ViewportDrawImage (fst (main_loop MAX PERIOD frames st)) =
      frames_before_quit frames.
Proof.
  induction frames as [|f frames IH]; intros st Hst; [now split|].
  cbn [main_loop supplied_events flat_map frames_before_quit].
  destruct (frame_summary f st Hst) as [Hdel Hend].
  fold (supplied_events frames).
  destruct (existsb quits (pending f)) eqn:Hq.
  - destruct Hend as [Hexit Hdraw].
    rewrite (bind_Exit _ _ _ _
               (eq_trans (surjective_pairing _) (f_equal (pair _) Hexit))).
    cbn [fst]. split; [|exact Hdraw].
    rewrite until_quit_quit by now rewrite existsb_quits. exact Hdel.
  - destruct Hend as [(st' & Hdone & Hst') Hdraw].
    rewrite (bind_Done _ _ _ _
               (eq_trans (surjective_pairing _) (f_equal (pair _) Hdone))).
    cbn [fst]. destruct (IH st' Hst') as [IHdel IHdraw].
    rewrite delivered_app, count_calls_app, Hdel, Hdraw, IHdel, IHdraw.
    split; [|reflexivity].
    rewrite until_quit_no_quit by now rewrite existsb_quits.
    f_equal. rewrite <- (app_nil_r (map event (pending f))) at 1.
    rewrite until_quit_no_quit by now rewrite existsb_quits.
    now rewrite app_nil_r.
Qed.

End Runs.

(** X9. Drawings of a run.  With a maximum zoom factor [2^k], [k <= 29],
    from locals in range: the main loop calls [ViewportDrawImage] once for
    every frame that comes before the first frame holding a quit signal,
    and not at all in that frame or later. *)
Theorem draws_until_quit (MAX PERIOD : Z) (k : nat) (frames : list Frame)
    (st : Locals) :
  (k <= 29)%nat -> MAX = two_power_nat k -> locals_in_range MAX st ->
  count_calls is_ViewportDrawImage (fst (main_loop MAX PERIOD frames st)) =
    frames_before_quit frames.
Proof.
  intros Hk HMAX Hst.
  exact (proj2 (main_loop_summary MAX PERIOD k Hk HMAX frames st Hst)).
Qed.

Lemma draws_until_quit_witness :
  count_calls is_ViewportDrawImage
    (fst (main_loop 8 16
            [mkFrame 100 [at_mouse (SDL_MOUSEWHEEL 1)] 104;
             mkFrame 116 [] 117;
             mkFrame 132 [at_mouse (SDL_KEYDOWN SDLK_q)] 133;
             mkFrame 148 [] 149]
            initial_locals)) = 2%nat.
Proof.
  apply (draws_until_quit 8 16 3); [lia|reflexivity|].
  exact (initial_locals_in_range 8 3 ltac:(lia) eq_refl).
Defined.

(** X10. Events of a run.  With a maximum zoom factor [2^k], [k <= 29],
    from locals in range: the events that the main loop takes from
    [SDL_PollEvent] are the supplied events, in their order, up to and
    including the first quit signal; none is skipped and none behind the
    quit signal is taken. *)
Theorem events_until_quit (MAX PERIOD : Z) (k : nat) (frames : list Frame)
    (st : Locals) :
  (k <= 29)%nat -> MAX = two_power_nat k -> locals_in_range MAX st ->
  delivered (fst (main_loop MAX PERIOD frames st)) =
    until_quit (supplied_events frames).
Proof.
  intros Hk HMAX Hst.
  exact (proj1 (main_loop_summary MAX PERIOD k Hk HMAX frames st Hst)).
Qed.

Lemma events_until_quit_witness :
  delivered
    (fst (main_loop 8 16
            [mkFrame 100 [at_mouse (SDL_MOUSEWHEEL 1)] 104;
             mkFrame 132 [at_mouse (SDL_KEYDOWN SDLK_q);
                          at_mouse (SDL_KEYDOWN SDLK_f)] 133;
             mkFrame 148 [at_mouse (SDL_MOUSEWHEEL 1)] 149]
            initial_locals)) =
  [SDL_MOUSEWHEEL 1; SDL_KEYDOWN SDLK_q].
Proof.
  apply (events_until_quit 8 16 3); [lia|reflexivity|].
  exact (initial_locals_in_range 8 3 ltac:(lia) eq_refl).
Defined.

(** ** Further properties: pacing *)

Section Delays.

Variables MAX PERIOD : Z.

Lemma not_delay_bounded (c : Call) : is_SDL_Delay c = false -> delay_within PERIOD c.
Proof. intros H ms ->. discriminate H. Qed.

Lemma pace_bounded (t0 t1 : Z) : Forall (delay_within PERIOD) (fst (pace PERIOD t0 t1)).
Proof.
  unfold pace.
  pose proof (uint32_range (uint32 t1 - uint32 t0)) as HE.
  pose proof (uint32_range PERIOD) as HP.
  destruct (Z.ltb_spec (uint32 (uint32 t1 - uint32 t0)) (uint32 PERIOD));
    [|constructor].
  constructor; [|constructor]. intros ms [= <-].
  rewrite uint32_small; lia.
Qed.

Lemma frame_bounded (f : Frame) (st : Locals) :
  Forall (delay_within PERIOD) (fst (frame MAX PERIOD f st)).
Proof.
  unfold frame.
  apply bind_Forall; [now repeat constructor|]. intros _ _.
  apply bind_Forall.
  { eapply Forall_impl; [|apply poll_loop_polling_calls].
    intros c Hc. now apply not_delay_bounded, polling_not_delay. }
  intros st' _.
  apply bind_Forall; [now repeat constructor|]. intros _ _.
  apply bind_Forall; [now repeat constructor|]. intros _ _.
  apply bind_Forall; [apply pace_bounded|]. intros _ _. constructor.
Qed.

Lemma main_loop_bounded (frames : list Frame) :
  forall st, Forall (delay_within PERIOD) (fst (main_loop MAX PERIOD frames st)).
Proof.
  induction frames as [|f frames IH]; intros st; [constructor|].
  cbn [main_loop]. apply bind_Forall; [apply frame_bounded|].
  intros st' _. apply IH.
Qed.

Lemma main_bounded (argv : list string) (env : Environment)
    (frames : list Frame) :
  Forall (delay_within PERIOD) (fst (main MAX PERIOD argv env frames)).
Proof.
  pose proof (main_unfold MAX PERIOD argv env frames) as Hm.
  cbv zeta in Hm. rewrite Hm. clear Hm.
  repeat match goal with
    | |- Forall _ (fst (if ?b then _ else _)) => destruct b
    end;
    cbn [fst]; try (apply Forall_app; split; [|apply main_loop_bounded]);
    repeat (constructor; [now apply not_delay_bounded|]); constructor.
Qed.

End Delays.

(** X11. Length of the waits.  In any run of [main], whatever the tick
    counts, every call of [SDL_Delay] asks for more than 0 ms and for at
    most the frame period (as an [unsigned int]): a frame never sleeps
    longer than one period. *)
Theorem delay_within_period (MAX PERIOD : Z) (argv : list string)
    (env : Environment) (frames : list Frame) (ms : Z) :
  In (SDL_Delay ms) (fst (main MAX PERIOD argv env frames)) ->
  0 < ms <= uint32 PERIOD.
Proof.
  intros Hin.
  exact (proj1 (Forall_forall _ _) (main_bounded MAX PERIOD argv env frames)
           _ Hin ms eq_refl).
Qed.

Lemma delay_within_period_witness : 0 < 12 <= uint32 16.
Proof.
  apply (delay_within_period 8 16 ["viewer"; "image.png"]%string
           (mkEnvironment 0 7 1 0) [mkFrame 100 [] 104] 12).
  cbn. do 10 right. now left.
Defined.

(** X12. The clock wraps around.  For a period that fits an
    [unsigned int]: when the second reading of the clock is the first one
    plus [d] ms modulo [2^32], with [d] below [2^32], the elapsed time that
    [main] computes is [d] even if the tick count wrapped around in
    between, and the wait is the period minus [d] when [d] is less than
    the period, and none otherwise. *)
Theorem pace_across_clock_wrap (PERIOD t0 d : Z) :
  0 <= PERIOD < 2 ^ 32 -> 0 <= d < 2 ^ 32 ->
  pace PERIOD t0 (uint32 (t0 + d)) =
  ((if d <? PERIOD then [SDL_Delay (PERIOD - d)] else []), Done tt).
Proof.
  intros HP Hd. unfold pace.
  assert (HE : uint32 (uint32 (uint32 (t0 + d)) - uint32 t0) = d).
  { rewrite uint32_sub. unfold uint32.
    rewrite Zminus_mod_idemp_l.
    replace (t0 + d - t0) with d by lia. now apply Z.mod_small. }
  rewrite HE, (uint32_small PERIOD) by exact HP.
  destruct (Z.ltb_spec d PERIOD); [|reflexivity].
  rewrite uint32_small by lia. reflexivity.
Qed.

Lemma pace_across_clock_wrap_witness :
  pace 16 4294967290 (uint32 (4294967290 + 10)) = ([SDL_Delay 6], Done tt).
Proof.
  apply (pace_across_clock_wrap 16 4294967290 10); lia.
Defined.

(** ** Further properties: the zoom factor of the shell and of the viewport *)

Lemma zoom_after_app acc tr1 tr2 :
  zoom_after acc (tr1 ++ tr2) = zoom_after (zoom_after acc tr1) tr2.
Proof. unfold zoom_after. apply fold_left_app. Qed.

Lemma zoom_after_other acc tr :
  Forall (fun c => is_ViewportSetZoomedArea c = false) tr ->
  zoom_after acc tr = acc.
Proof.
  induction 1 as [|c tr Hc _ IH]; [reflexivity|].
  unfold zoom_after in *. cbn. destruct c; try discriminate Hc; exact IH.
Qed.

Lemma zoom_after_last acc tr x y z :
  zoom_after acc (tr ++ [ViewportSetZoomedArea x y z]) = Some z.
Proof. now rewrite zoom_after_app. Qed.

Lemma delay_not_zoom c :
  is_SDL_Delay c = true -> is_ViewportSetZoomedArea c = false.
Proof. now destruct c. Qed.

Section Synced.

Variables MAX PERIOD : Z.
Variable k : nat.
Hypothesis k_small : (k <= 29)%nat.
Hypothesis MAX_power : MAX = two_power_nat k.

Lemma handle_event_synced (e : Polled) (st st' : Locals) (acc : option Z) :
  locals_in_range MAX st -> zoom_synced acc st ->
  snd (handle_event MAX e st) = Done st' ->
  zoom_synced (zoom_after acc (fst (handle_event MAX e st))) st'.
Proof.
  intros [HZ HM] Hs. destruct e as [ev [mx my]].
  destruct ev as [|wev d1 d2|wy|sym|x y|ty].
  - discriminate.
  - unfold handle_event. cbn [event].
    destruct (wev =? SDL_WINDOWEVENT_SIZE_CHANGED); cbn; intros [= <-];
      [now left|exact Hs].
  - rewrite handle_wheel. cbn [fst snd]. intros [= <-]. now right.
  - unfold handle_event. cbn [event].
    destruct (sym =? SDLK_f); [cbn; intros [= <-]; now left|].
    destruct (sym =? SDLK_q); [discriminate|].
    destruct (sym =? SDLK_s); cbn; intros [= <-]; [now left|exact Hs].
  - destruct (zoom_in_range_exponent MAX k k_small MAX_power _ HZ)
      as (n & Hn & Hzoom).
    destruct n as [|n].
    + rewrite handle_motion_unzoomed by exact Hzoom. cbn.
      now intros [= <-].
    + rewrite (handle_motion_zoomed MAX x y (mx, my) st (S n) Hzoom) by lia.
      cbn [fst snd]. intros [= <-]. right.
      unfold powers_of_two_up_to. rewrite seq_S, !map_app. cbn [map].
      now rewrite zoom_after_last, Hzoom.
  - cbn. now intros [= <-].
Qed.

Lemma poll_loop_synced (events : list Polled) :
  forall st st' acc,
    locals_in_range MAX st -> zoom_synced acc st ->
    snd (poll_loop MAX events st) = Done st' ->
    zoom_synced (zoom_after acc (fst (poll_loop MAX events st))) st'.
Proof.
  induction events as [|e events IH]; intros st st' acc Hst Hs.
  - cbn. now intros [= <-].
  - cbn [poll_loop]. rewrite bind_call. cbn [fst snd]. intros H.
    destruct (bind_snd_Done _ _ _ H) as (st1 & H1 & H2 & ->).
    change (SDL_PollEvent (Some (event e)) :: ?l)
      with ([SDL_PollEvent (Some (event e))] ++ l).
    rewrite !zoom_after_app.
    apply IH; [|now apply handle_event_synced|exact H2].
    exact (proj2 (proj2
      (handle_event_in_range MAX k k_small MAX_power e st Hst)) st1 H1).
Qed.

Lemma frame_synced (f : Frame) (st st' : Locals) (acc : option Z) :
  locals_in_range MAX st -> zoom_synced acc st ->
  snd (frame MAX PERIOD f st) = Done st' ->
  zoom_synced (zoom_after acc (fst (frame MAX PERIOD f st))) st'.
Proof.
  intros Hst Hs H. rewrite frame_ending in H.
  pose proof (poll_loop_synced (pending f) st st' acc Hst Hs H) as Hp.
  destruct (poll_loop MAX (pending f) st) as [tr r] eqn:E.
  cbn [fst snd] in *. subst r.
  rewrite (frame_Done MAX PERIOD f st st' tr E). cbn [fst].
  change (SDL_GetTicks (start_ticks f) :: ?l)
    with ([SDL_GetTicks (start_ticks f)] ++ l).
  rewrite !zoom_after_app.
  rewrite (zoom_after_other _ (fst (pace _ _ _)));
    [exact Hp|].
  eapply Forall_impl; [|apply pace_calls]. exact delay_not_zoom.
Qed.

Lemma main_loop_synced (frames : list Frame) :
  forall st st' acc,
    locals_in_range MAX st -> zoom_synced acc st ->
    snd (main_loop MAX PERIOD frames st) = Done st' ->
    zoom_synced (zoom_after acc (fst (main_loop MAX PERIOD frames st))) st'.
Proof.
  induction frames as [|f frames IH]; intros st st' acc Hst Hs.
  - cbn. now intros [= <-].
  - cbn [main_loop]. intros H.
    destruct (bind_snd_Done _ _ _ H) as (st1 & H1 & H2 & ->).
    rewrite zoom_after_app.
    apply IH; [|now apply frame_synced|exact H2].
    exact (proj2 (proj2
      (frame_in_range MAX PERIOD k k_small MAX_power f st Hst)) st1 H1).
Qed.

End Synced.

(** X13. The shell and the viewport agree on the zoom factor.  With a
    maximum zoom factor [2^k], [k <= 29]: whenever a run of [main] is still
    going after the supplied frames, the zoom factor held by the shell is
    1, or it is the factor of the last [ViewportSetZoomedArea] call of the
    run. *)
Theorem zoom_factor_synced (MAX PERIOD : Z) (k : nat) (argv : list string)
    (env : Environment) (frames : list Frame) (st : Locals) :
  (k <= 29)%nat -> MAX = two_power_nat k ->
  snd (main MAX PERIOD argv env frames) = Done st ->
  Zoom_Factor st = 1 \/
  last_zoom (fst (main MAX PERIOD argv env frames)) = Some (Zoom_Factor st).
Proof.
  intros Hk HMAX.
  pose proof (main_unfold MAX PERIOD argv env frames) as Hm.
  cbv zeta in Hm. rewrite Hm. clear Hm.
  repeat match goal with
    | |- snd (if ?b then _ else _) = _ -> _ => destruct b; [discriminate|]
    end.
  cbn [fst snd]. intros H. unfold last_zoom. rewrite zoom_after_app.
  apply (main_loop_synced MAX PERIOD k Hk HMAX frames initial_locals st);
    [now apply (initial_locals_in_range MAX k)|now left|exact H].
Qed.

Lemma zoom_factor_synced_witness :
  let run :=
    main 8 16 ["viewer"; "image.png"]%string (mkEnvironment 0 7 1 0)
      [mkFrame 100 [at_mouse (SDL_MOUSEWHEEL 1); at_mouse (SDL_MOUSEWHEEL 1);
                    at_mouse (SDL_MOUSEMOTION 5 6)] 104] in
  Zoom_Factor (mkLocals 4 0) = 1 \/
  last_zoom (fst run) = Some (Zoom_Factor (mkLocals 4 0)).
Proof.
  intros run.
  apply (zoom_factor_synced 8 16 3); [lia|reflexivity|reflexivity].
Defined.

(** ** Further properties: runs do not depend on the clock *)

Lemma untimed_app tr1 tr2 : untimed (tr1 ++ tr2) = untimed tr1 ++ untimed tr2.
Proof. apply filter_app. Qed.

Lemma pace_untimed PERIOD t0 t1 : untimed (fst (pace PERIOD t0 t1)) = [].
Proof. unfold pace. now destruct (_ <? _). Qed.

Lemma frame_Hang MAX PERIOD (f : Frame) (st : Locals) (tr : list Call) :
  poll_loop MAX (pending f) st = (tr, Hang) ->
  frame MAX PERIOD f st = (SDL_GetTicks (start_ticks f) :: tr, Hang).
Proof. intros H. unfold frame. rewrite bind_call, H. reflexivity. Qed.

(** The calls of an iteration, clock calls apart, are those of its polling
    loop, followed by the drawing when the polling loop falls through. *)
Lemma frame_untimed MAX PERIOD (f : Frame) (st : Locals) :
  untimed (fst (frame MAX PERIOD f st)) =
  untimed (fst (poll_loop MAX (pending f) st))
    ++ match snd (poll_loop MAX (pending f) st) with
       | Done _ => [ViewportDrawImage]
       | _ => []
       end.
Proof.
  destruct (poll_loop MAX (pending f) st) as [tr [st'|status|]] eqn:E;
    cbn [fst snd].
  - rewrite (frame_Done MAX PERIOD f st st' tr E). cbn [fst].
    change (SDL_GetTicks (start_ticks f) :: ?l)
      with ([SDL_GetTicks (start_ticks f)] ++ l).
    rewrite !untimed_app, pace_untimed. reflexivity.
  - rewrite (frame_Exit MAX PERIOD f st tr status E). cbn [fst].
    now rewrite app_nil_r.
  - rewrite (frame_Hang MAX PERIOD f st tr E). cbn [fst].
    now rewrite app_nil_r.
Qed.

(** X14. Runs do not depend on the clock.  Two runs of the main loop from
    the same locals over the same pending events end the same way and make
    the same calls in the same order, reads of the clock and waits apart,
    whatever the tick counts and whatever the frame period: a slow frame
    changes nothing but the waits. *)
Theorem run_independent_of_clock (MAX PERIOD PERIOD' : Z)
    (frames frames' : list Frame) (st : Locals) :
  map pending frames = map pending frames' ->
  snd (main_loop MAX PERIOD frames st) = snd (main_loop MAX PERIOD' frames' st)
  /\
  untimed (fst (main_loop MAX PERIOD frames st)) =
  untimed (fst (main_loop MAX PERIOD' frames' st)).
Proof.
  revert frames' st.
  induction frames as [|f frames IH]; intros [|f' frames'] st Hp;
    try discriminate Hp; [now split|].
  injection Hp as Hf Hp. cbn [main_loop].
  pose proof (frame_ending MAX PERIOD f st) as E.
  pose proof (frame_ending MAX PERIOD' f' st) as E'.
  pose proof (frame_untimed MAX PERIOD f st) as U.
  pose proof (frame_untimed MAX PERIOD' f' st) as U'.
  rewrite <- Hf in E', U'. rewrite <- E' in E. rewrite <- U' in U.
  unfold bind. rewrite E.
  destruct (snd (frame MAX PERIOD' f' st)) as [st1| |]; cbn [fst snd];
    [|now split|now split].
  destruct (IH frames' st1 Hp) as [IHs IHu].
  split; [exact IHs|]. now rewrite !untimed_app, U, IHu.
Qed.

Lemma run_independent_of_clock_witness :
  let events := [at_mouse (SDL_MOUSEWHEEL 1); at_mouse (SDL_MOUSEMOTION 5 6)] in
  snd (main_loop 8 16 [mkFrame 100 events 104] initial_locals) =
  snd (main_loop 8 33 [mkFrame 4294967000 events 900] initial_locals) /\
  untimed (fst (main_loop 8 16 [mkFrame 100 events 104] initial_locals)) =
  untimed (fst (main_loop 8 33 [mkFrame 4294967000 events 900]
                  initial_locals)).
Proof.
  intros events.
  apply (run_independent_of_clock 8 16 33). reflexivity.
Defined.
